(** * Opening hours: normalizer and time formatter

    A shallow embedding of [opening_hours.py]:
    [parse_opening_hours], [seconds_to_hours_and_minutes],
    [hours_and_minutes_as_string] and [opening_hours_to_string].

    Python integers are [Z]; [None] is the [None] of [option]; the
    [hours_data] dictionary is a [gmap string (list item)];
    [raise RuntimeError(...)] is the left injection of a sum. *)

From Stdlib Require Import ZArith String Ascii List Lia DecimalString Sorted.
From stdpp Require Import base option list strings gmap fin_maps.

Local Open Scope Z_scope.

(** ** Data model *)

(** One entry of a day's list: [{"type": ..., "value": ...}].  The key
    ["type"] may be missing ([None]); ["value"] is read by the sort key of
    every entry, so it is always there. *)
Record item : Type := Item { type : option string; value : Z }.

Definition open_item (v : Z) : item := Item (Some "open") v.
Definition close_item (v : Z) : item := Item (Some "close") v.

(** A time tuple [(start, end)]; [end] is [None] for an opening time that
    has not been closed. *)
Abbreviation span := (Z * option Z)%type.

(** An element of [all_days]: [{"day": ..., "hours": ...}]. *)
Record day_record : Type := DayRecord { day : string; hours : option (list span) }.

(** The five [raise RuntimeError] sites of [parse_opening_hours], with the
    values their messages are formatted from.  The specification has one
    name, OrphanCloseError, for the two close errors. *)
Inductive error : Type :=
| OverlappingOpenError (v : Z) (day_name : string) (current_start : Z)
    (* 'New open time ... before previous time ... closed' *)
| InvalidCloseError (v : Z) (day_name : string)
    (* 'Invalid close time ... in day ...' *)
| CloseWithoutOpenError (v : Z) (day_name : string)
    (* 'New close time ... without an opening time' *)
| LingeringCloseError
    (* 'Lingering sunday close time detected' *)
| LingeringOpenError (start : Z) (day_name : string).
    (* 'Lingering opening time ... in day ...' *)

Definition DAY_NAMES : list string :=
  ["monday"; "tuesday"; "wednesday"; "thursday"; "friday"; "saturday"; "sunday"].

(** ** Python truth values *)

(** [if x:] for [x] an integer or [None]: false on [None] and on [0]. *)
Definition truthy (x : option Z) : bool :=
  match x with
  | Some v => negb (Z.eqb v 0)
  | None => false
  end.

(** ** Sorting: [sorted(hour_entries, key=lambda x: x['value'])]

    Python's [sorted] is stable, so its result is the stable sort by
    [value]; insertion from the right is one. *)
Fixpoint insert_by_value (x : item) (l : list item) : list item :=
  match l with
  | [] => [x]
  | y :: l' => if Z.leb (value x) (value y) then x :: l else y :: insert_by_value x l'
  end.

Fixpoint sorted (l : list item) : list item :=
  match l with
  | [] => []
  | x :: l' => insert_by_value x (sorted l')
  end.

(** ** The loop over one day's entries *)

(** The variables the inner loop reads and writes: the locals [hours] and
    [current_start], the list [all_days] (whose last record the loop may
    update) and [sunday_close]. *)
Record loop_state : Type := LoopState {
  st_hours : list span;
  st_current_start : option Z;
  st_all_days : list day_record;
  st_sunday_close : option Z
}.

(** [all_days[-1]['hours'][-1] = (all_days[-1]['hours'][-1][0], v)],
    under the guard [len(all_days) and all_days[-1].get('hours')];
    [None] when the guard is false. *)
Definition close_previous_day (all_days : list day_record) (v : Z)
  : option (list day_record) :=
  match last all_days with
  | Some prev =>
      match hours prev with
      | Some hs =>
          match last hs with
          | Some (s, _) =>
              Some (removelast all_days
                      ++ [DayRecord (day prev) (Some (removelast hs ++ [(s, Some v)]))])
          | None => None
          end
      | None => None
      end
  | None => None
  end.

(** The body of [for item in hours_data[day_name]]. *)
Definition process_item (day_name : string) (st : loop_state) (it : item)
  : error + loop_state :=
  match type it with
  | None => inr st
  | Some t =>
      if String.eqb t "open" then
        if truthy (st_current_start st) then
          inl (OverlappingOpenError (value it) day_name
                 (default 0 (st_current_start st)))
        else
          match last (st_hours st) with
          | Some (s, e) =>
              if decide (Some (value it) = e) then
                inr (LoopState (removelast (st_hours st)) (Some s)
                       (st_all_days st) (st_sunday_close st))
              else
                inr (LoopState (st_hours st) (Some (value it))
                       (st_all_days st) (st_sunday_close st))
          | None =>
              inr (LoopState (st_hours st) (Some (value it))
                     (st_all_days st) (st_sunday_close st))
          end
      else if String.eqb t "close" then
        match st_current_start st, st_hours st with
        | None, [] =>
            match close_previous_day (st_all_days st) (value it) with
            | Some all_days' =>
                inr (LoopState [] None all_days' (st_sunday_close st))
            | None =>
                if String.eqb day_name "monday" then
                  inr (LoopState [] None (st_all_days st) (Some (value it)))
                else inl (InvalidCloseError (value it) day_name)
            end
        | None, _ :: _ => inl (CloseWithoutOpenError (value it) day_name)
        | Some c, hs =>
            inr (LoopState (hs ++ [(c, Some (value it))]) None
                   (st_all_days st) (st_sunday_close st))
        end
      else inr st
  end.

(** The whole inner loop: stops at the first error. *)
Fixpoint process_items (day_name : string) (st : loop_state) (items : list item)
  : error + loop_state :=
  match items with
  | [] => inr st
  | it :: rest =>
      match process_item day_name st it with
      | inl e => inl e
      | inr st' => process_items day_name st' rest
      end
  end.

(** ** The loop over the week *)

(** [{"day": day_name, "hours": hours if hours else None}]. *)
Definition make_record (day_name : string) (hs : list span) : day_record :=
  DayRecord day_name (match hs with [] => None | _ => Some hs end).

(** What follows the inner loop: the trailing opening time, the lingering
    Sunday close, and the append to [all_days]. *)
Definition finish_day (day_name : string) (st : loop_state)
  : error + (list day_record * option Z) :=
  let is_sunday := String.eqb day_name "sunday" in
  let sunday_close := st_sunday_close st in
  match st_current_start st with
  | Some c =>
      if is_sunday && truthy sunday_close then
        inr (st_all_days st ++ [make_record day_name (st_hours st ++ [(c, sunday_close)])],
             sunday_close)
      else
        inr (st_all_days st ++ [make_record day_name (st_hours st ++ [(c, None)])],
             sunday_close)
  | None =>
      if is_sunday && truthy sunday_close then inl LingeringCloseError
      else inr (st_all_days st ++ [make_record day_name (st_hours st)], sunday_close)
  end.

(** The body of [for day_name in DAY_NAMES], on the pair
    [(all_days, sunday_close)]. *)
Definition process_day (hours_data : gmap string (list item)) (day_name : string)
    (acc : list day_record * option Z)
  : error + (list day_record * option Z) :=
  let '(all_days, sunday_close) := acc in
  match hours_data !! day_name with
  | None | Some [] => inr (all_days ++ [DayRecord day_name None], sunday_close)
  | Some items =>
      match process_items day_name (LoopState [] None all_days sunday_close) items with
      | inl e => inl e
      | inr st => finish_day day_name st
      end
  end.

Fixpoint process_days (hours_data : gmap string (list item)) (day_names : list string)
    (acc : list day_record * option Z)
  : error + (list day_record * option Z) :=
  match day_names with
  | [] => inr acc
  | day_name :: rest =>
      match process_day hours_data day_name acc with
      | inl e => inl e
      | inr acc' => process_days hours_data rest acc'
      end
  end.

(** The final [for day in all_days]: the first record whose last tuple
    has no end raises. *)
Fixpoint check_lingering_open (all_days : list day_record) : option error :=
  match all_days with
  | [] => None
  | d :: rest =>
      match hours d with
      | Some hs =>
          match last hs with
          | Some (s, None) => Some (LingeringOpenError s (day d))
          | _ => check_lingering_open rest
          end
      | None => check_lingering_open rest
      end
  end.

Definition parse_opening_hours (hours_data : gmap string (list item))
  : error + list day_record :=
  let hours_data := sorted <$> hours_data in
  match process_days hours_data DAY_NAMES ([], None) with
  | inl e => inl e
  | inr (all_days, _) =>
      match check_lingering_open all_days with
      | Some e => inl e
      | None => inr all_days
      end
  end.

(** ** The formatter's time rendering *)

(** [minutes = seconds // 60; hours = minutes // 60; minutes %= 60].
    Python's [//] and [%] round towards minus infinity, as [Z.div] and
    [Z.modulo] do for a positive divisor. *)
Definition seconds_to_hours_and_minutes (seconds : Z) : Z * Z :=
  let minutes := seconds / 60 in
  let hours := minutes / 60 in
  let minutes := minutes mod 60 in
  (hours, minutes).

(** ['{}'.format(n)] for an integer: its decimal digits, with a minus sign
    when negative. *)
Definition format_int (n : Z) : string :=
  NilZero.string_of_int (Z.to_int n).

(** ['{:02d}'.format(n)]: the decimal digits, padded on the left with a
    zero up to width 2. *)
Definition format_02d (n : Z) : string :=
  let s := format_int n in
  if Nat.ltb (String.length s) 2 then String "0" s else s.

Definition hours_and_minutes_as_string (hours_and_minutes : Z * Z) : string :=
  let '(hours, minutes) := hours_and_minutes in
  let am_or_pm := if Z.leb 12 hours then "pm" else "am" in
  let hours := if Z.ltb 12 hours then hours - 12 else hours in
  String.append (format_int hours)
    (String.append (if Z.eqb minutes 0 then "" else String.append ":" (format_02d minutes))
       (String.append " " am_or_pm)).

(** The rendering applied to each end of a time tuple by
    [opening_hours_to_string]. *)
Definition render_time (seconds : Z) : string :=
  hours_and_minutes_as_string (seconds_to_hours_and_minutes seconds).

(** ** The formatter *)

(** [s.capitalize()] for an ASCII string: the first character in upper
    case, the others in lower case, which changes the letters a-z and A-Z
    only.  On a string with other cased characters Python changes those
    too; the properties that depend on the text of a day name are stated
    for ASCII names ([ascii_only]), as the weekday names are. *)
Definition upper_char (c : ascii) : ascii :=
  let n := nat_of_ascii c in
  if Nat.leb 97 n && Nat.leb n 122 then ascii_of_nat (n - 32) else c.

Definition lower_char (c : ascii) : ascii :=
  let n := nat_of_ascii c in
  if Nat.leb 65 n && Nat.leb n 90 then ascii_of_nat (n + 32) else c.

Fixpoint lower (s : string) : string :=
  match s with
  | EmptyString => EmptyString
  | String c rest => String (lower_char c) (lower rest)
  end.

Definition capitalize (s : string) : string :=
  match s with
  | EmptyString => EmptyString
  | String c rest => String (upper_char c) (lower rest)
  end.

(** [sep.join(l)]. *)
Fixpoint join (sep : string) (l : list string) : string :=
  match l with
  | [] => EmptyString
  | [s] => s
  | s :: rest => String.append s (String.append sep (join sep rest))
  end.

(** The line feed of ["...\n"]. *)
Definition newline : ascii := ascii_of_nat 10.

(** ["{} - {}".format(...)] for one time tuple.  An end that is [None]
    makes [seconds_to_hours_and_minutes] raise a [TypeError], which is the
    only way [opening_hours_to_string] fails on these records: [None]
    stands for it. *)
Definition format_span (x : span) : option string :=
  match x.2 with
  | Some end_time =>
      Some (String.append (render_time x.1)
              (String.append " - " (render_time end_time)))
  | None => None
  end.

(** The inner loop [for start_time, end_time in day['hours']], which
    appends to [opening_hours]. *)
Fixpoint format_spans (opening_hours : list string) (hs : list span)
  : option (list string) :=
  match hs with
  | [] => Some opening_hours
  | x :: rest =>
      match format_span x with
      | Some text => format_spans (opening_hours ++ [text]) rest
      | None => None
      end
  end.

(** The body of [for day in day_data]: the line added to [result]. *)
Definition format_day (d : day_record) : option string :=
  let opening_hours :=
    match hours d with
    | Some (x :: hs) => format_spans [] (x :: hs)
    | _ => Some ["Closed"]
    end in
  match opening_hours with
  | Some texts =>
      Some (String.append (capitalize (day d))
              (String.append ": "
                 (String.append (join ", " texts) (String newline EmptyString))))
  | None => None
  end.

(** The loop of [opening_hours_to_string], on the accumulator [result]. *)
Fixpoint opening_hours_to_string_from (result : string) (day_data : list day_record)
  : option string :=
  match day_data with
  | [] => Some result
  | d :: rest =>
      match format_day d with
      | Some line => opening_hours_to_string_from (String.append result line) rest
      | None => None
      end
  end.

Definition opening_hours_to_string (day_data : list day_record) : option string :=
  opening_hours_to_string_from EmptyString day_data.

(** * Vocabulary of the properties *)

(** The order of the sort key. *)
Definition le_value (a b : item) : Prop := value a <= value b.

(** [item['type'] == 'open'] and [item['type'] == 'close']. *)
Definition is_open (it : item) : Prop := type it = Some "open".
Definition is_close (it : item) : Prop := type it = Some "close".

(** The successful outcomes of [process_item], one constructor per path
    through the loop body. *)
Inductive item_step (day_name : string) (it : item) : loop_state → loop_state → Prop :=
| step_skip st :
    ¬ is_open it → ¬ is_close it →
    item_step day_name it st st
| step_open hs cs ad sc :
    is_open it → truthy cs = false →
    (∀ s, last hs ≠ Some (s, Some (value it))) →
    item_step day_name it (LoopState hs cs ad sc) (LoopState hs (Some (value it)) ad sc)
| step_merge hs s cs ad sc :
    is_open it → truthy cs = false →
    item_step day_name it
      (LoopState (hs ++ [(s, Some (value it))]) cs ad sc)
      (LoopState hs (Some s) ad sc)
| step_close_previous ads prev hs s e sc :
    is_close it →
    item_step day_name it
      (LoopState [] None (ads ++ [DayRecord prev (Some (hs ++ [(s, e)]))]) sc)
      (LoopState [] None (ads ++ [DayRecord prev (Some (hs ++ [(s, Some (value it))]))]) sc)
| step_stash ad sc :
    is_close it → day_name = "monday" →
    close_previous_day ad (value it) = None →
    item_step day_name it (LoopState [] None ad sc) (LoopState [] None ad (Some (value it)))
| step_close hs c ad sc :
    is_close it →
    item_step day_name it
      (LoopState hs (Some c) ad sc)
      (LoopState (hs ++ [(c, Some (value it))]) None ad sc).

(** A tuple with an end that is not before its start. *)
Definition closed_ordered (x : span) : Prop := ∃ e, x.2 = Some e ∧ x.1 <= e.

(** Every tuple of the record but its last one is closed and ordered. *)
Definition inner_ordered (r : day_record) : Prop :=
  ∀ hs x, hours r = Some (hs ++ [x]) → Forall closed_ordered hs.

(** The same, for every record of [all_days]. *)
Definition days_ordered (all_days : list day_record) : Prop :=
  Forall inner_ordered all_days.

(** The day lists that [parse_opening_hours] iterates over are sorted. *)
Definition sorted_data (hours_data : gmap string (list item)) : Prop :=
  ∀ d l, hours_data !! d = Some l → StronglySorted le_value l.

(** The record's hours are [None]. *)
Definition is_closed (r : day_record) : bool :=
  match hours r with None => true | Some _ => false end.

(** The name of a record and whether its hours are [None]. *)
Definition shape (r : day_record) : string * bool := (day r, is_closed r).

(** The guard [day_name not in hours_data or not len(hours_data[day_name])]. *)
Definition missing (hours_data : gmap string (list item)) (day_name : string) : Prop :=
  hours_data !! day_name = None ∨ hours_data !! day_name = Some [].

(** The records of days without hours. *)
Definition closed_records (day_names : list string) : list day_record :=
  map (λ d, DayRecord d None) day_names.

(** The week in which only [day_name] has hours. *)
Definition single_day_week (day_name : string) (hs : list span) : list day_record :=
  map (λ d, DayRecord d (if decide (d = day_name) then Some hs else None)) DAY_NAMES.

(** The entries that the loop body acts on. *)
Definition is_event (it : item) : Prop := is_open it ∨ is_close it.

Global Instance is_open_dec it : Decision (is_open it).
Proof. unfold is_open. apply _. Defined.
Global Instance is_close_dec it : Decision (is_close it).
Proof. unfold is_close. apply _. Defined.
Global Instance is_event_dec it : Decision (is_event it).
Proof. unfold is_event. apply _. Defined.

(** The character of a decimal digit. *)
Definition digit (n : Z) : ascii := ascii_of_nat (48 + Z.to_nat n).

(** The rendering as described: hour and minute of the day, seconds
    dropped; the hour shown less 12 when above 12, without padding; the
    minutes left out when zero, else a colon and two digits; then a space
    and "am" below hour 12, "pm" from hour 12 on. *)
Definition render_time_spec (seconds : Z) : string :=
  let hour := seconds / 3600 in
  let minute := (seconds / 60) mod 60 in
  let shown := if Z.ltb 12 hour then hour - 12 else hour in
  let hour_text :=
    if Z.ltb shown 10 then String (digit shown) ""
    else String (digit (shown / 10)) (String (digit (shown mod 10)) "") in
  let minute_text :=
    if Z.eqb minute 0 then ""
    else String ":" (String (digit (minute / 10)) (String (digit (minute mod 10)) "")) in
  String.append hour_text
    (String.append minute_text
       (String.append " " (if Z.ltb hour 12 then "am" else "pm"))).

(** Equality of entries is decidable. *)
Global Instance item_eq_dec : EqDecision item.
Proof. solve_decision. Defined.

(** Of two consecutive tuples, the earlier one has an end, not before its
    start, and the later one starts after that end. *)
Definition disjoint_ascending (hs : list span) : Prop :=
  ∀ i s1 e1 s2 e2,
    hs !! i = Some (s1, e1) → hs !! S i = Some (s2, e2) →
    ∃ v, e1 = Some v ∧ s1 <= v < s2.

(** [v] is at most the value of every entry still to come. *)
Definition bounded_by (rest : list item) (v : Z) : Prop :=
  Forall (λ it, v <= value it) rest.

(** The locals of the inner loop, with the entries [rest] still to come:
    the tuples are closed, ordered, apart from each other, and end at most
    where [rest] begins; the current start lies after the last tuple. *)
Definition day_separated (rest : list item) (st : loop_state) : Prop :=
  disjoint_ascending (st_hours st)
  ∧ Forall closed_ordered (st_hours st)
  ∧ (∀ s e, last (st_hours st) = Some (s, Some e) → bounded_by rest e)
  ∧ (∀ c, st_current_start st = Some c →
       bounded_by rest c
       ∧ ∀ s e, last (st_hours st) = Some (s, Some e) → e < c).

(** The hours of every record are [None] or a list, not empty, of tuples
    apart from each other. *)
Definition days_separated (all_days : list day_record) : Prop :=
  Forall (λ r, ∀ hs, hours r = Some hs → hs ≠ [] ∧ disjoint_ascending hs) all_days.

(** The entries that describe a list of opening spans [(start, end)]: an
    open and a close for each span. *)
Definition events_of (spans : list (Z * Z)) : list item :=
  flat_map (λ x, [open_item x.1; close_item x.2]) spans.

(** The same spans as time tuples. *)
Definition closed_spans (spans : list (Z * Z)) : list span :=
  map (λ x, (x.1, Some x.2)) spans.

(** Every span ends at or after its start and before the start of every
    later span. *)
Fixpoint well_separated (spans : list (Z * Z)) : Prop :=
  match spans with
  | [] => True
  | x :: rest => x.1 <= x.2 ∧ Forall (λ y, x.2 < y.1) rest ∧ well_separated rest
  end.

(** The record of [day_name] in a week given by its spans per day. *)
Definition week_record (week : gmap string (list (Z * Z))) (day_name : string)
  : day_record :=
  DayRecord day_name
    (match week !! day_name with
     | Some (x :: rest) => Some (closed_spans (x :: rest))
     | _ => None
     end).

(** [v] is the value of an entry with property [P] in the list of
    [day_name]. *)
Definition entry_of (hours_data : gmap string (list item)) (day_name : string)
    (P : item → Prop) (v : Z) : Prop :=
  ∃ l it, hours_data !! day_name = Some l ∧ it ∈ l ∧ P it ∧ value it = v.

(** The name after [d] in [names], if any. *)
Fixpoint following (d : string) (names : list string) : option string :=
  match names with
  | [] => None
  | a :: rest => if decide (a = d) then head rest else following d rest
  end.

(** The day after [d], monday after sunday. *)
Definition next_day (d : string) : string :=
  default "monday" (following d DAY_NAMES).

(** A time tuple of the day with list [src]: its start is the value of an
    open entry of [src], its end, if any, of a close entry of [src]. *)
Definition span_sourced (src : list item) (x : span) : Prop :=
  (∃ it, it ∈ src ∧ is_open it ∧ value it = x.1)
  ∧ ∀ v, x.2 = Some v → ∃ it, it ∈ src ∧ is_close it ∧ value it = v.

(** The same for the locals of the inner loop. *)
Definition day_sourced (src : list item) (st : loop_state) : Prop :=
  Forall (span_sourced src) (st_hours st)
  ∧ ∀ c, st_current_start st = Some c → ∃ it, it ∈ src ∧ is_open it ∧ value it = c.

(** The starts of a record are values of open entries of its day, its ends
    values of close entries of its day or of the next day. *)
Definition record_sourced (hours_data : gmap string (list item)) (r : day_record) : Prop :=
  ∀ hs x, hours r = Some hs → x ∈ hs →
    entry_of hours_data (day r) is_open x.1
    ∧ ∀ v, x.2 = Some v →
        entry_of hours_data (day r) is_close v
        ∨ entry_of hours_data (next_day (day r)) is_close v.

(** The same for [all_days] and [sunday_close] while the day [current] is
    processed. *)
Definition days_sourced (hours_data : gmap string (list item)) (current : string)
    (all_days : list day_record) (sunday_close : option Z) : Prop :=
  Forall (record_sourced hours_data) all_days
  ∧ (∀ prev, last all_days = Some prev → next_day (day prev) = current)
  ∧ ∀ v, sunday_close = Some v → entry_of hours_data "monday" is_close v.

(** How many times the character [c] occurs in [s]. *)
Fixpoint count_char (c : ascii) (s : string) : nat :=
  match s with
  | EmptyString => 0
  | String a rest => (if Ascii.eqb c a then 1 else 0) + count_char c rest
  end.

(** A line: a text without line feed, followed by a line feed. *)
Definition is_line (s : string) : Prop :=
  ∃ body, s = String.append body (String newline EmptyString)
          ∧ count_char newline body = 0%nat.

(** The strings of a list, one after the other. *)
Fixpoint concat_strings (l : list string) : string :=
  match l with
  | [] => EmptyString
  | s :: rest => String.append s (concat_strings rest)
  end.


(** Every character of [s] is an ASCII character (below 128). *)
Fixpoint ascii_only (s : string) : bool :=
  match s with
  | EmptyString => true
  | String c rest => Nat.ltb (nat_of_ascii c) 128 && ascii_only rest
  end.

(** * Properties *)

(** ** The docstrings' examples *)

Example parse_empty : parse_opening_hours ∅ = inr (closed_records DAY_NAMES).
Proof. vm_compute. reflexivity. Qed.

Example parse_monday_pair :
  parse_opening_hours {[ "monday" := [open_item 36000; close_item 86399] ]}
  = inr (DayRecord "monday" (Some [(36000, Some 86399)])
           :: map (fun d => DayRecord d None) (tail DAY_NAMES)).
Proof. vm_compute. reflexivity. Qed.

Example parse_sunday_wrap :
  parse_opening_hours
    (<["monday" := [close_item 3600]]> {[ "sunday" := [open_item 61200] ]})
  = inr (map (fun d => DayRecord d None) (removelast DAY_NAMES)
           ++ [DayRecord "sunday" (Some [(61200, Some 3600)])]).
Proof. vm_compute. reflexivity. Qed.

Example render_docstring :
  map hours_and_minutes_as_string [(0, 0); (10, 0); (18, 0); (10, 15); (23, 59)]
  = ["0 am"; "10 am"; "6 pm"; "10:15 am"; "11:59 pm"].
Proof. vm_compute. reflexivity. Qed.

(** ** The sort *)

Lemma insert_by_value_Forall (P : item → Prop) x l :
  P x → Forall P l → Forall P (insert_by_value x l).
Proof.
  intros Hx Hl. induction Hl as [|y l Hy Hl IH]; simpl.
  - by constructor.
  - destruct (Z.leb_spec (value x) (value y)); repeat constructor; done.
Qed.

Lemma insert_by_value_sorted x l :
  StronglySorted le_value l → StronglySorted le_value (insert_by_value x l).
Proof.
  induction 1 as [|y l Hl IH Hy]; simpl.
  - repeat constructor.
  - destruct (Z.leb_spec (value x) (value y)) as [Hxy|Hxy].
    + constructor; [by constructor|].
      constructor; [done|].
      eapply Forall_impl; [exact Hy|]. unfold le_value. intros z Hz. lia.
    + constructor; [done|].
      apply insert_by_value_Forall; [unfold le_value; lia|done].
Qed.

Lemma sorted_ascending l : StronglySorted le_value (sorted l).
Proof.
  induction l as [|x l IH]; simpl; [constructor|by apply insert_by_value_sorted].
Qed.

Lemma insert_by_value_not_nil x l : insert_by_value x l ≠ [].
Proof. destruct l as [|y l]; simpl; [done|]. by destruct (value x <=? value y). Qed.

Lemma sorted_nil l : sorted l = [] ↔ l = [].
Proof.
  split; [|by intros ->].
  destruct l as [|x l]; [done|]. simpl. intros H.
  by apply insert_by_value_not_nil in H.
Qed.

Lemma insert_by_value_le x l :
  Forall (le_value x) l → insert_by_value x l = x :: l.
Proof.
  destruct 1 as [|y l Hy _]; simpl; [done|].
  by rewrite (proj2 (Z.leb_le _ _) Hy).
Qed.

(** Dropping entries commutes with the sort, because the sort is stable. *)
Lemma filter_insert_by_value (P : item → Prop) `{!∀ x, Decision (P x)} x l :
  StronglySorted le_value l →
  filter P (insert_by_value x l)
  = if decide (P x) then insert_by_value x (filter P l) else filter P l.
Proof.
  induction 1 as [|y l Hl IH Hy]; simpl.
  - rewrite filter_cons, filter_nil. by destruct (decide (P x)).
  - destruct (Z.leb_spec (value x) (value y)) as [Hxy|Hxy].
    + rewrite (filter_cons _ x). destruct (decide (P x)) as [Hx|Hx]; [|done].
      symmetry. apply insert_by_value_le.
      apply Forall_forall. intros z [_ Hz]%list_elem_of_filter.
      apply elem_of_cons in Hz as [->|Hz]; [done|].
      rewrite Forall_forall in Hy. specialize (Hy z Hz).
      unfold le_value in *. lia.
    + rewrite !(filter_cons _ y), IH.
      destruct (decide (P x)), (decide (P y)); simpl; try done.
      by rewrite (proj2 (Z.leb_gt _ _) Hxy).
Qed.

Lemma filter_sorted (P : item → Prop) `{!∀ x, Decision (P x)} l :
  filter P (sorted l) = sorted (filter P l).
Proof.
  induction l as [|x l IH]; simpl; [done|].
  rewrite filter_insert_by_value by apply sorted_ascending.
  rewrite filter_cons. destruct (decide (P x)); simpl; by rewrite IH.
Qed.

(** ** One entry of the inner loop, as a step relation *)

Lemma close_previous_day_snoc ads prev hs s e v :
  close_previous_day (ads ++ [DayRecord prev (Some (hs ++ [(s, e)]))]) v
  = Some (ads ++ [DayRecord prev (Some (hs ++ [(s, Some v)]))]).
Proof.
  unfold close_previous_day. rewrite last_snoc. simpl.
  by rewrite last_snoc, !removelast_last.
Qed.

Lemma close_previous_day_Some ad v ad' :
  close_previous_day ad v = Some ad' →
  ∃ ads prev hs s e,
    ad = ads ++ [DayRecord prev (Some (hs ++ [(s, e)]))]
    ∧ ad' = ads ++ [DayRecord prev (Some (hs ++ [(s, Some v)]))].
Proof.
  unfold close_previous_day.
  destruct (last ad) as [[prev [hs|]]|] eqn:Had; simpl; [|done..].
  destruct (last hs) as [[s e]|] eqn:Hhs; [|done].
  apply last_Some in Had as [ads ->]. apply last_Some in Hhs as [hs' ->].
  rewrite !removelast_last. intros [= <-]. by exists ads, prev, hs', s, e.
Qed.

Lemma process_item_step day_name st it st' :
  process_item day_name st it = inr st' ↔ item_step day_name it st st'.
Proof.
  split.
  - unfold process_item. destruct st as [hs cs ad sc]. simpl.
    destruct (type it) as [t|] eqn:Ht.
    2:{ intros [= <-]. by constructor; unfold is_open, is_close; rewrite Ht. }
    destruct (String.eqb_spec t "open") as [->|Hopen].
    { destruct (truthy cs) eqn:Hcs; [done|].
      destruct (last hs) as [[s e]|] eqn:Hlast.
      - destruct (decide (Some (value it) = e)) as [<-|Hne]; intros [= <-].
        + apply last_Some in Hlast as [hs' ->]. rewrite removelast_last.
          by constructor.
        + constructor; [done..|]. intros s'. rewrite Hlast. congruence.
      - intros [= <-]. constructor; [done..|]. intros s'. by rewrite Hlast. }
    destruct (String.eqb_spec t "close") as [->|Hclose].
    { destruct cs as [c|].
      - intros [= <-]. by constructor.
      - destruct hs as [|h hs]; [|done].
        destruct (close_previous_day ad (value it)) as [ad'|] eqn:Hprev.
        + intros [= <-].
          apply close_previous_day_Some in Hprev as (ads & prev & hs' & s & e & -> & ->).
          by constructor.
        + destruct (String.eqb_spec day_name "monday") as [->|Hday]; [|done].
          intros [= <-]. by constructor. }
    intros [= <-]. constructor; unfold is_open, is_close; rewrite Ht; congruence.
  - unfold process_item.
    destruct 1 as [st Ho Hc|hs cs ad sc Ho Hcs Hl|hs s cs ad sc Ho Hcs
                  |ads prev hs s e sc Hc|ad sc Hc -> Hprev|hs c ad sc Hc];
      unfold is_open, is_close in *; simpl.
    + destruct (type it) as [t|]; [|done].
      destruct (String.eqb_spec t "open") as [->|_]; [done|].
      by destruct (String.eqb_spec t "close") as [->|_].
    + rewrite Ho, Hcs. simpl.
      destruct (last hs) as [[s e]|] eqn:Hlast; [|done].
      destruct (decide (Some (value it) = e)) as [<-|Hne]; [|done].
      by destruct (Hl s).
    + rewrite Ho, Hcs, last_snoc. simpl.
      rewrite decide_True by done. by rewrite removelast_last.
    + rewrite Hc. simpl. by rewrite close_previous_day_snoc.
    + rewrite Hc. simpl. by rewrite Hprev.
    + rewrite Hc. by simpl.
Qed.

Lemma process_items_cons day_name st it rest st' :
  process_items day_name st (it :: rest) = inr st' ↔
  ∃ st1, item_step day_name it st st1 ∧ process_items day_name st1 rest = inr st'.
Proof.
  simpl. split.
  - destruct (process_item day_name st it) as [e|st1] eqn:Hit; [done|].
    intros Hrest. exists st1. by rewrite <- process_item_step.
  - intros (st1 & Hit%process_item_step & Hrest). by rewrite Hit.
Qed.

(** ** Tuples are closed and ordered, except the last of a day *)

Lemma item_step_ordered day_name it st st' :
  item_step day_name it st st' →
  Forall closed_ordered (st_hours st) →
  (∀ c, st_current_start st = Some c → c <= value it) →
  days_ordered (st_all_days st) →
  Forall closed_ordered (st_hours st')
  ∧ (∀ c, st_current_start st' = Some c → c <= value it)
  ∧ days_ordered (st_all_days st').
Proof.
  destruct 1 as [st Ho Hc|hs cs ad sc Ho Hcs Hl|hs s cs ad sc Ho Hcs
                |ads prev hs s e sc Hc|ad sc Hc -> Hprev|hs c ad sc Hc];
    simpl; intros Hhs Hcur Had.
  - done.
  - split_and!; [done| |done]. intros c [= <-]. lia.
  - apply Forall_app in Hhs as [Hhs Hlast].
    split_and!; [done| |done]. intros c [= <-].
    rewrite Forall_singleton in Hlast. destruct Hlast as (e & [= <-] & Hle). done.
  - split_and!; [done..|].
    unfold days_ordered in *. apply Forall_app in Had as [Hads Hprev].
    apply Forall_app. split; [done|]. rewrite Forall_singleton.
    rewrite Forall_singleton in Hprev.
    intros hs' x [= [-> _]%app_inj_tail]. by apply (Hprev hs' (s, e)).
  - done.
  - split_and!; [|done..]. apply Forall_app. split; [done|].
    rewrite Forall_singleton. exists (value it). split; [done|]. by apply Hcur.
Qed.

Lemma process_items_ordered day_name items :
  StronglySorted le_value items →
  ∀ st st',
    process_items day_name st items = inr st' →
    Forall closed_ordered (st_hours st) →
    (∀ c, st_current_start st = Some c → Forall (λ it, c <= value it) items) →
    days_ordered (st_all_days st) →
    Forall closed_ordered (st_hours st') ∧ days_ordered (st_all_days st').
Proof.
  induction 1 as [|it rest Hrest IH Hit]; intros st st'.
  - by intros [= <-].
  - intros (st1 & Hstep & Hitems)%process_items_cons Hhs Hcur Had.
    destruct (item_step_ordered _ _ _ _ Hstep) as (Hhs1 & Hcur1 & Had1);
      [done| |done|].
    { intros c Hc. specialize (Hcur c Hc). by apply Forall_cons in Hcur as [? _]. }
    apply (IH st1 st'); [done..| |done].
    intros c Hc. specialize (Hcur1 c Hc).
    eapply Forall_impl; [exact Hit|]. unfold le_value. intros z Hz. simpl. lia.
Qed.

Lemma hours_make_record day_name hs hs' :
  hours (make_record day_name hs) = Some hs' ↔ hs' = hs ∧ hs ≠ [].
Proof.
  destruct hs as [|h hs]; simpl; split; try done.
  - by intros [_ ?].
  - by intros [= <-].
  - by intros [-> _].
Qed.

Lemma hours_make_record_snoc day_name hs x :
  hours (make_record day_name (hs ++ [x])) = Some (hs ++ [x]).
Proof. apply hours_make_record. split; [done|]. by destruct hs. Qed.

Lemma make_record_ordered day_name hs :
  Forall closed_ordered hs → inner_ordered (make_record day_name hs).
Proof.
  intros Hhs hs' x [Heq _]%hours_make_record. subst hs.
  by apply Forall_app in Hhs as [? _].
Qed.

Lemma make_record_snoc_ordered day_name hs x :
  Forall closed_ordered hs → inner_ordered (make_record day_name (hs ++ [x])).
Proof.
  intros Hhs hs' y. rewrite (hours_make_record_snoc day_name hs x).
  intros [= Heq]. apply app_inj_tail in Heq as [<- _]. done.
Qed.

Lemma finish_day_ordered day_name st all_days sunday_close :
  finish_day day_name st = inr (all_days, sunday_close) →
  Forall closed_ordered (st_hours st) →
  days_ordered (st_all_days st) →
  days_ordered all_days.
Proof.
  unfold finish_day, days_ordered. intros Hfin Hhs Had.
  destruct (st_current_start st) as [c|];
    destruct (String.eqb day_name "sunday" && truthy (st_sunday_close st));
    simplify_eq; apply Forall_app; split; try done; rewrite Forall_singleton;
    auto using make_record_ordered, make_record_snoc_ordered.
Qed.

Lemma sorted_data_fmap hours_data : sorted_data (sorted <$> hours_data).
Proof.
  intros d l. rewrite lookup_fmap.
  destruct (hours_data !! d) as [l'|]; [|done]. simpl. intros [= <-].
  apply sorted_ascending.
Qed.

Lemma process_day_ordered hours_data day_name all_days sunday_close all_days' sunday_close' :
  sorted_data hours_data →
  process_day hours_data day_name (all_days, sunday_close) = inr (all_days', sunday_close') →
  days_ordered all_days → days_ordered all_days'.
Proof.
  intros Hsorted. unfold process_day.
  assert (days_ordered all_days → days_ordered (all_days ++ [DayRecord day_name None]))
    as Hnone.
  { intros Had. apply Forall_app. split; [done|]. by rewrite Forall_singleton. }
  destruct (hours_data !! day_name) as [[|it items]|] eqn:Hday.
  1,3: intros [= <- _]; done.
  destruct (process_items _ _ _) as [e|st] eqn:Hitems; [done|].
  intros Hfin Had.
  destruct (process_items_ordered day_name (it :: items) (Hsorted _ _ Hday) _ _ Hitems)
    as [Hhs Had']; [by constructor|done|done|].
  by eapply finish_day_ordered.
Qed.

Lemma process_days_ordered hours_data day_names :
  sorted_data hours_data →
  ∀ all_days sunday_close all_days' sunday_close',
    process_days hours_data day_names (all_days, sunday_close)
    = inr (all_days', sunday_close') →
    days_ordered all_days → days_ordered all_days'.
Proof.
  intros Hsorted. induction day_names as [|d rest IH]; intros ad sc ad' sc'.
  - simpl. by intros [= <- _].
  - cbn [process_days].
    destruct (process_day hours_data d (ad, sc)) as [e|[ad1 sc1]] eqn:Hday; [done|].
    intros Hrest Had. eapply IH; [done|]. by eapply process_day_ordered.
Qed.

(** ** Which days are in [all_days], and which of them are closed *)

Lemma missing_fmap_sorted hours_data day_name :
  missing (sorted <$> hours_data) day_name ↔ missing hours_data day_name.
Proof.
  unfold missing. rewrite lookup_fmap.
  destruct (hours_data !! day_name) as [l|]; simpl; [|done].
  split; (intros [|[= H]]; [done|right; f_equal]).
  - by apply sorted_nil.
  - by rewrite H.
Qed.

Lemma item_step_shape day_name it st st' :
  item_step day_name it st st' →
  map shape (st_all_days st') = map shape (st_all_days st).
Proof. destruct 1; simpl; try done. by rewrite !map_app. Qed.

Lemma process_items_shape day_name items :
  ∀ st st', process_items day_name st items = inr st' →
    map shape (st_all_days st') = map shape (st_all_days st).
Proof.
  induction items as [|it rest IH]; intros st st'.
  - by intros [= <-].
  - intros (st1 & Hstep%item_step_shape & Hrest%IH)%process_items_cons. congruence.
Qed.

Lemma finish_day_shape day_name st all_days sunday_close :
  finish_day day_name st = inr (all_days, sunday_close) →
  ∃ b, map shape all_days = map shape (st_all_days st) ++ [(day_name, b)].
Proof.
  unfold finish_day. intros Hfin.
  destruct (st_current_start st) as [c|];
    destruct (String.eqb day_name "sunday" && truthy (st_sunday_close st));
    simplify_eq; rewrite map_app; simpl; eauto.
Qed.

Lemma process_day_shape hours_data day_name all_days sunday_close all_days' sunday_close' :
  process_day hours_data day_name (all_days, sunday_close) = inr (all_days', sunday_close') →
  ∃ b, map shape all_days' = map shape all_days ++ [(day_name, b)]
       ∧ (missing hours_data day_name → b = true).
Proof.
  unfold process_day, missing.
  destruct (hours_data !! day_name) as [[|it items]|] eqn:Hday.
  1,3: intros [= <- _]; exists true; by rewrite map_app.
  destruct (process_items _ _ _) as [e|st] eqn:Hitems; [done|].
  intros [b Hb]%finish_day_shape. apply process_items_shape in Hitems.
  exists b. split; [by rewrite Hb, Hitems|]. by intros [|].
Qed.

Lemma process_days_shape hours_data day_names :
  ∀ all_days sunday_close all_days' sunday_close',
    process_days hours_data day_names (all_days, sunday_close)
    = inr (all_days', sunday_close') →
    ∃ new, map shape all_days' = map shape all_days ++ new
           ∧ new.*1 = day_names
           ∧ Forall (λ p, missing hours_data p.1 → p.2 = true) new.
Proof.
  induction day_names as [|d rest IH]; intros ad sc ad' sc'.
  - simpl. intros [= <- _]. exists []. by rewrite app_nil_r.
  - cbn [process_days].
    destruct (process_day hours_data d (ad, sc)) as [e|[ad1 sc1]] eqn:Hday; [done|].
    apply process_day_shape in Hday as (b & Hb & Hmiss).
    intros (new & Hnew & Hnames & Hall)%IH.
    exists ((d, b) :: new). split_and!.
    + by rewrite Hnew, Hb, <- app_assoc.
    + by rewrite fmap_cons, Hnames.
    + by constructor.
Qed.

(** What a successful run of [parse_opening_hours] went through. *)
Lemma parse_opening_hours_inr hours_data out :
  parse_opening_hours hours_data = inr out ↔
  ∃ sunday_close,
    process_days (sorted <$> hours_data) DAY_NAMES ([], None) = inr (out, sunday_close)
    ∧ check_lingering_open out = None.
Proof.
  unfold parse_opening_hours.
  destruct (process_days _ _ _) as [e|[ad sc]].
  { split; [done|]. by intros (sc' & [=] & _). }
  destruct (check_lingering_open ad) eqn:Hcheck.
  { split; [done|]. intros (sc' & [= <- _] & Hnone). congruence. }
  split; [intros [= <-]; eauto|]. by intros (sc' & [= <- _] & _).
Qed.

(** ** Running single days *)

Lemma process_day_missing hours_data day_name all_days sunday_close :
  missing hours_data day_name →
  process_day hours_data day_name (all_days, sunday_close)
  = inr (all_days ++ [DayRecord day_name None], sunday_close).
Proof. unfold process_day. by intros [-> | ->]. Qed.

Lemma process_day_present hours_data day_name items all_days sunday_close :
  hours_data !! day_name = Some items → items ≠ [] →
  process_day hours_data day_name (all_days, sunday_close)
  = match process_items day_name (LoopState [] None all_days sunday_close) items with
    | inl e => inl e
    | inr st => finish_day day_name st
    end.
Proof. unfold process_day. intros -> ?. by destruct items. Qed.

Lemma process_days_app hours_data names1 names2 acc :
  process_days hours_data (names1 ++ names2) acc
  = match process_days hours_data names1 acc with
    | inl e => inl e
    | inr acc' => process_days hours_data names2 acc'
    end.
Proof.
  revert acc. induction names1 as [|d rest IH]; intros acc; [done|].
  cbn [process_days app]. by destruct (process_day hours_data d acc).
Qed.

Lemma process_days_single hours_data day_name acc :
  process_days hours_data [day_name] acc = process_day hours_data day_name acc.
Proof. cbn [process_days]. by destruct (process_day hours_data day_name acc). Qed.

Lemma process_days_missing hours_data day_names all_days sunday_close :
  Forall (missing hours_data) day_names →
  process_days hours_data day_names (all_days, sunday_close)
  = inr (all_days ++ closed_records day_names, sunday_close).
Proof.
  intros Hmiss. revert all_days.
  induction Hmiss as [|d rest Hd Hrest IH]; intros ad.
  - simpl. by rewrite app_nil_r.
  - cbn [process_days]. rewrite process_day_missing by done.
    rewrite IH. simpl. by rewrite <- app_assoc.
Qed.

Lemma check_lingering_open_app ad1 ad2 :
  check_lingering_open (ad1 ++ ad2)
  = match check_lingering_open ad1 with
    | Some e => Some e
    | None => check_lingering_open ad2
    end.
Proof.
  induction ad1 as [|r ad1 IH]; [done|]. simpl.
  destruct (hours r) as [hs|]; [|done].
  by destruct (last hs) as [[s [e|]]|].
Qed.

Lemma check_lingering_open_closed day_names :
  check_lingering_open (closed_records day_names) = None.
Proof. by induction day_names. Qed.

Lemma NoDup_DAY_NAMES : NoDup DAY_NAMES.
Proof. apply (bool_decide_unpack _). by vm_compute. Qed.

Lemma map_other_days day_name hs day_names :
  day_name ∉ day_names →
  map (λ d, DayRecord d (if decide (d = day_name) then Some hs else None)) day_names
  = closed_records day_names.
Proof.
  induction day_names as [|d rest IH]; [done|].
  intros [Hd Hrest]%not_elem_of_cons. simpl.
  rewrite decide_False by done. by rewrite IH.
Qed.

(** A week whose only non-empty day runs to finished tuples [hs]. *)
Lemma parse_single_day day_name items hs :
  day_name ∈ DAY_NAMES →
  (∀ all_days,
     process_items day_name (LoopState [] None all_days None) (sorted items)
     = inr (LoopState hs None all_days None)) →
  (∃ hs' s e, hs = hs' ++ [(s, Some e)]) →
  parse_opening_hours {[ day_name := items ]} = inr (single_day_week day_name hs).
Proof.
  intros Hin Hrun (hs' & s & e & Hhs).
  assert (sorted items ≠ []) as Hne.
  { intros Hnil. specialize (Hrun []). rewrite Hnil in Hrun. simpl in Hrun.
    injection Hrun as <-. by destruct hs'. }
  pose proof NoDup_DAY_NAMES as Hnd.
  unfold parse_opening_hours, single_day_week.
  apply list_elem_of_split in Hin as (pre & post & Hsplit). rewrite Hsplit in *.
  apply NoDup_app in Hnd as (_ & Hpre & [Hpost _]%NoDup_cons).
  assert (day_name ∉ pre) as Hpre'.
  { intros Hd. apply (Hpre _ Hd). constructor. }
  assert (∀ names, day_name ∉ names →
            Forall (missing (sorted <$> ({[day_name := items]} : gmap string (list item)))) names)
    as Hmiss.
  { intros names Hnot. apply Forall_forall. intros d Hd. left.
    rewrite lookup_fmap, lookup_singleton_ne; [done|]. intros ->. done. }
  rewrite process_days_app, process_days_missing by by apply Hmiss.
  cbn [process_days].
  rewrite (process_day_present _ _ (sorted items))
    by (by rewrite ?lookup_fmap, ?lookup_singleton_eq).
  rewrite Hrun. unfold finish_day. simpl. rewrite andb_false_r.
  rewrite process_days_missing by by apply Hmiss.
  rewrite !check_lingering_open_app, !check_lingering_open_closed.
  assert (make_record day_name hs = DayRecord day_name (Some hs)) as ->.
  { unfold make_record. rewrite Hhs. by destruct hs'. }
  simpl. rewrite Hhs at 1. rewrite last_snoc.
  rewrite map_app. simpl. rewrite decide_True by done.
  rewrite !map_other_days by done. by rewrite <- app_assoc.
Qed.

Lemma process_items_merge day_name hs s v w all_days sunday_close :
  process_items day_name
    (LoopState (hs ++ [(s, Some v)]) None all_days sunday_close)
    [open_item v; close_item w]
  = inr (LoopState (hs ++ [(s, Some w)]) None all_days sunday_close).
Proof.
  unfold process_items, process_item. simpl.
  rewrite last_snoc, decide_True by done. simpl.
  by rewrite removelast_last.
Qed.

(** ** Entries that are neither [open] nor [close] *)

Lemma process_item_skip day_name st it :
  ¬ is_open it → ¬ is_close it → process_item day_name st it = inr st.
Proof. intros Ho Hc. apply process_item_step. by constructor. Qed.

Lemma process_items_filter day_name items :
  ∀ st, process_items day_name st items
        = process_items day_name st (filter is_event items).
Proof.
  induction items as [|it rest IH]; intros st; [done|].
  rewrite filter_cons. destruct (decide (is_event it)) as [Hev|Hev].
  - simpl. destruct (process_item day_name st it); [done|]. apply IH.
  - simpl. rewrite process_item_skip; [apply IH|..]; intros ?; apply Hev;
      [by left|by right].
Qed.

Lemma parse_opening_hours_ordered hours_data out :
  parse_opening_hours hours_data = inr out → days_ordered out.
Proof.
  intros (sc & Hrun & _)%parse_opening_hours_inr.
  eapply process_days_ordered; [apply sorted_data_fmap|exact Hrun|constructor].
Qed.

Lemma check_lingering_open_None all_days :
  check_lingering_open all_days = None ↔
  Forall (λ r, ∀ hs s, hours r = Some hs → last hs ≠ Some (s, None)) all_days.
Proof.
  induction all_days as [|r ad IH]; simpl; [by split; [constructor|]|].
  rewrite Forall_cons, <- IH. clear IH.
  destruct (hours r) as [hs|]; [|by split; [|intros [_ ?]]].
  destruct (last hs) as [[s [e|]]|] eqn:Hlast.
  - split; [|by intros [_ ?]]. intros ?. split; [|done].
    intros ? s' [= <-]. by rewrite Hlast.
  - split; [done|]. intros [Hr _]. by destruct (Hr hs s).
  - split; [|by intros [_ ?]]. intros ?. split; [|done].
    intros ? s' [= <-]. by rewrite Hlast.
Qed.

Lemma check_lingering_open_Some all_days e :
  check_lingering_open all_days = Some e →
  ∃ r hs s, r ∈ all_days ∧ hours r = Some hs ∧ last hs = Some (s, None)
            ∧ e = LingeringOpenError s (day r).
Proof.
  induction all_days as [|r ad IH]; simpl; [done|].
  assert (check_lingering_open ad = Some e →
          ∃ r' hs s, r' ∈ r :: ad ∧ hours r' = Some hs ∧ last hs = Some (s, None)
                     ∧ e = LingeringOpenError s (day r')) as Hrest.
  { intros (r' & hs & s & Hin & Hrest)%IH. exists r', hs, s.
    split; [by constructor|done]. }
  destruct (hours r) as [hs|] eqn:Hhs; [|done].
  destruct (last hs) as [[s [e'|]]|] eqn:Hlast; [done| |done].
  intros [= <-]. exists r, hs, s. split; [constructor|done].
Qed.

(** ** The close kept for sunday *)

Lemma item_step_sunday_close day_name it st st' :
  day_name ≠ "monday" →
  item_step day_name it st st' → st_sunday_close st' = st_sunday_close st.
Proof. intros Hday. by destruct 1. Qed.

Lemma process_items_sunday_close day_name items :
  day_name ≠ "monday" →
  ∀ st st', process_items day_name st items = inr st' →
    st_sunday_close st' = st_sunday_close st.
Proof.
  intros Hday. induction items as [|it rest IH]; intros st st'.
  - by intros [= <-].
  - intros (st1 & Hstep & Hrest%IH)%process_items_cons.
    apply item_step_sunday_close in Hstep; [congruence|done].
Qed.

(** ** The time rendering, in the words of its description *)

Lemma below_cases (P : Z → Prop) (bound : nat) :
  Forall P (map Z.of_nat (seq 0 bound)) →
  ∀ n, 0 <= n < Z.of_nat bound → P n.
Proof.
  rewrite Forall_forall. intros Hall n Hn. apply Hall.
  apply list_elem_of_In, in_map_iff. exists (Z.to_nat n).
  split; [lia|]. apply in_seq. lia.
Qed.

Lemma format_int_hour n :
  0 <= n < 13 →
  format_int n
  = if Z.ltb n 10 then String (digit n) ""
    else String (digit (n / 10)) (String (digit (n mod 10)) "").
Proof.
  revert n. apply (below_cases _ 13).
  repeat constructor; by vm_compute.
Qed.

Lemma format_02d_minute n :
  0 <= n < 60 →
  format_02d n = String (digit (n / 10)) (String (digit (n mod 10)) "").
Proof.
  revert n. apply (below_cases _ 60).
  repeat constructor; by vm_compute.
Qed.

(** * The specification's claims *)

(** C1, at the failing input: monday's list is the single close at 0
    (midnight) and sunday's the single open at 61200.  The close is kept
    for sunday, but the test [and sunday_close] is false for the value 0:
    sunday's tuple gets no end and the normalizer raises the lingering-open
    error instead of returning sunday [(61200, 0)].  With 3600 in place of
    0 it returns sunday [(61200, 3600)] and monday [None], and sunday
    [(61200, 3600)] also when monday's list goes on after its leading
    close. *)
Theorem close_at_midnight_not_used :
  parse_opening_hours {[ "monday" := [close_item 0]; "sunday" := [open_item 61200] ]}
  = inl (LingeringOpenError 61200 "sunday")
  ∧ parse_opening_hours
      {[ "monday" := [close_item 3600]; "sunday" := [open_item 61200] ]}
    = inr (closed_records ["monday"; "tuesday"; "wednesday"; "thursday"; "friday";
                           "saturday"]
             ++ [DayRecord "sunday" (Some [(61200, Some 3600)])])
  ∧ parse_opening_hours
      {[ "monday" := [close_item 3600; open_item 36000; close_item 64800];
         "sunday" := [open_item 61200] ]}
    = inr (DayRecord "monday" (Some [(36000, Some 64800)])
             :: closed_records ["tuesday"; "wednesday"; "thursday"; "friday"; "saturday"]
             ++ [DayRecord "sunday" (Some [(61200, Some 3600)])]).
Proof. split_and!; by vm_compute. Qed.

(** C2: whenever the normalizer returns, its result has exactly seven
    records, named monday to sunday in that order, whatever keys the input
    has; the record of a day that is missing from the input or has an empty
    list has hours [None]; and on the empty input it returns the seven
    records with hours [None]. *)
Theorem seven_days_in_order hours_data out :
  parse_opening_hours hours_data = inr out →
  length out = 7%nat
  ∧ map day out = DAY_NAMES
  ∧ (∀ r, r ∈ out → missing hours_data (day r) → hours r = None)
  ∧ parse_opening_hours ∅ = inr (closed_records DAY_NAMES).
Proof.
  intros (sc & Hrun & _)%parse_opening_hours_inr.
  apply process_days_shape in Hrun as (new & Hshape & Hnames & Hmiss).
  simpl in Hshape. subst new.
  assert (map day out = DAY_NAMES) as Hdays.
  { rewrite <- Hnames. clear. induction out as [|r out IH]; [done|].
    simpl. by f_equal. }
  split_and!; [|done| |by vm_compute].
  - rewrite <- (length_map day), Hdays. done.
  - intros r Hr Hmissing. rewrite Forall_forall in Hmiss.
    specialize (Hmiss (shape r)). simpl in Hmiss.
    unfold is_closed in Hmiss. destruct (hours r); [|done].
    discriminate Hmiss.
    + apply list_elem_of_In, in_map, list_elem_of_In, Hr.
    + by apply missing_fmap_sorted.
Qed.

Lemma seven_days_in_order_witness :
  let out :=
    [DayRecord "monday" None; DayRecord "tuesday" (Some [(36000, Some 64800)]);
     DayRecord "wednesday" None; DayRecord "thursday" None; DayRecord "friday" None;
     DayRecord "saturday" None; DayRecord "sunday" None] in
  length out = 7%nat
  ∧ map day out = DAY_NAMES
  ∧ (∀ r, r ∈ out →
       missing ({[ "tuesday" := [close_item 64800; open_item 36000]; "friday" := [] ]}
                  : gmap string (list item)) (day r) →
       hours r = None)
  ∧ parse_opening_hours ∅ = inr (closed_records DAY_NAMES).
Proof.
  apply (seven_days_in_order
           {[ "tuesday" := [close_item 64800; open_item 36000]; "friday" := [] ]}).
  vm_compute. reflexivity.
Defined.




(** C4, at the failing input: monday's leading close is kept for sunday,
    sunday is missing (or has an empty list), and the normalizer returns
    seven closed days instead of raising the lingering-close error; with
    an entry without type in sunday's list the same close does raise it. *)
Theorem lingering_close_missed_without_sunday :
  parse_opening_hours {[ "monday" := [close_item 3600] ]}
  = inr (closed_records DAY_NAMES)
  ∧ parse_opening_hours {[ "monday" := [close_item 3600]; "sunday" := [] ]}
    = inr (closed_records DAY_NAMES)
  ∧ parse_opening_hours {[ "monday" := [close_item 3600]; "sunday" := [Item None 0] ]}
    = inl LingeringCloseError.
Proof. split_and!; by vm_compute. Qed.

(** C5, at the failing input: an open at 0 is the current start when the
    open at 100 arrives, and no error is raised: the open at 0 is
    overwritten and the day gets the tuple (100, 200).  With 1 in place
    of 0 the overlapping-open error is raised. *)
Theorem open_after_open_at_midnight :
  parse_opening_hours {[ "monday" := [open_item 0; open_item 100; close_item 200] ]}
  = inr (single_day_week "monday" [(100, Some 200)])
  ∧ parse_opening_hours {[ "monday" := [open_item 1; open_item 100; close_item 200] ]}
    = inl (OverlappingOpenError 100 "monday" 1).
Proof. split; by vm_compute. Qed.

(** C6: a close entry met with no current start and no tuple yet for the
    day, while the last record of [all_days] (the previous day) has a tuple,
    replaces the end of that record's last tuple by the close value, keeps
    its start, and raises nothing; so tuesday's leading close at 50 turns
    monday's (100, 200) into (100, 50). *)
Theorem close_rewrites_previous_day day_name v ads prev hs s e sunday_close :
  process_item day_name
    (LoopState [] None (ads ++ [DayRecord prev (Some (hs ++ [(s, e)]))]) sunday_close)
    (close_item v)
  = inr (LoopState [] None
           (ads ++ [DayRecord prev (Some (hs ++ [(s, Some v)]))]) sunday_close)
  ∧ parse_opening_hours
      {[ "monday" := [open_item 10; close_item 20; open_item 100; close_item 200];
         "tuesday" := [close_item 50] ]}
    = inr (single_day_week "monday" [(10, Some 20); (100, Some 50)]).
Proof.
  split; [|by vm_compute].
  unfold process_item. simpl. by rewrite close_previous_day_snoc.
Qed.

(** C7: a day whose sorted entries are open [a], close [b], open [b],
    close [c] (as open 100, close 200, open 200, close 300) gets the single
    tuple [(a, c)], every other day being closed; and in the loop, an open
    entry whose value is the end of the last finished tuple takes that tuple
    back and continues it, so that the next close ends one span. *)
Theorem adjacent_pairs_merge day_name items a b c :
  day_name ∈ DAY_NAMES →
  sorted items = [open_item a; close_item b; open_item b; close_item c] →
  parse_opening_hours {[ day_name := items ]}
  = inr (single_day_week day_name [(a, Some c)])
  ∧ ∀ d hs s v w all_days sunday_close,
      process_items d (LoopState (hs ++ [(s, Some v)]) None all_days sunday_close)
        [open_item v; close_item w]
      = inr (LoopState (hs ++ [(s, Some w)]) None all_days sunday_close).
Proof.
  intros Hday Hsorted. split; [|intros; apply process_items_merge].
  apply parse_single_day; [done| |by exists [], a, c].
  intros all_days. rewrite Hsorted.
  change [open_item a; close_item b; open_item b; close_item c]
    with ([open_item a; close_item b] ++ [open_item b; close_item c]).
  unfold process_items at 1. simpl.
  exact (process_items_merge day_name [] a b c all_days None).
Qed.

Lemma adjacent_pairs_merge_witness :
  parse_opening_hours
    {[ "friday" := [close_item 300; open_item 100; close_item 200; open_item 200] ]}
  = inr (closed_records ["monday"; "tuesday"; "wednesday"; "thursday"]
           ++ [DayRecord "friday" (Some [(100, Some 300)])]
           ++ closed_records ["saturday"; "sunday"]).
Proof.
  refine (proj1 (adjacent_pairs_merge "friday" _ 100 200 300 _ _)).
  - repeat constructor.
  - reflexivity.
Defined.

(** C8: once the seven records are produced, a record whose last tuple has
    no end makes the normalizer fail with the lingering-open error; and no
    tuple of a returned result lacks an end. *)
Theorem no_open_end_in_result hours_data all_days sunday_close :
  process_days (sorted <$> hours_data) DAY_NAMES ([], None)
  = inr (all_days, sunday_close) →
  ((∃ r hs s, r ∈ all_days ∧ hours r = Some hs ∧ last hs = Some (s, None)) →
   ∃ s day_name, parse_opening_hours hours_data = inl (LingeringOpenError s day_name))
  ∧ (∀ out r hs x,
       parse_opening_hours hours_data = inr out →
       r ∈ out → hours r = Some hs → x ∈ hs → is_Some x.2).
Proof.
  intros Hrun. split.
  - intros (r & hs & s & Hr & Hhs & Hlast).
    unfold parse_opening_hours. rewrite Hrun.
    destruct (check_lingering_open all_days) as [e|] eqn:Hcheck.
    + apply check_lingering_open_Some in Hcheck as (r' & _ & s' & _ & _ & _ & ->).
      by exists s', (day r').
    + rewrite check_lingering_open_None, Forall_forall in Hcheck.
      by destruct (Hcheck r Hr hs s).
  - intros out r hs x Hout Hr Hhs Hx.
    pose proof (parse_opening_hours_ordered _ _ Hout) as Hord.
    apply parse_opening_hours_inr in Hout as (sc & _ & Hcheck).
    rewrite check_lingering_open_None, Forall_forall in Hcheck.
    unfold days_ordered in Hord. rewrite Forall_forall in Hord.
    specialize (Hord r Hr). specialize (Hcheck r Hr hs).
    destruct (last hs) as [y|] eqn:Hlast.
    2:{ apply last_None in Hlast. subst hs. by apply elem_of_nil in Hx. }
    apply last_Some in Hlast as [hs' ->].
    apply elem_of_app in Hx as [Hx|Hx%list_elem_of_singleton].
    + specialize (Hord hs' y Hhs). rewrite Forall_forall in Hord.
      destruct (Hord x Hx) as (e & -> & _). by eexists.
    + subst y. destruct x as [s [e|]]; [by eexists|].
      by destruct (Hcheck s Hhs).
Qed.

Lemma no_open_end_in_result_witness :
  (∃ s day_name,
     parse_opening_hours {[ "tuesday" := [open_item 36000] ]}
     = inl (LingeringOpenError s day_name))
  ∧ is_Some (36000, Some 64800).2.
Proof.
  split.
  - refine (proj1 (no_open_end_in_result {[ "tuesday" := [open_item 36000] ]}
                     _ None _) _).
    + by vm_compute.
    + exists (DayRecord "tuesday" (Some [(36000, None)])), [(36000, None)], 36000.
      split; [repeat constructor|done].
  - refine (proj2 (no_open_end_in_result
                     {[ "tuesday" := [open_item 36000; close_item 64800] ]}
                     _ None _)
              _ (DayRecord "tuesday" (Some [(36000, Some 64800)]))
              [(36000, Some 64800)] (36000, Some 64800) _ _ _ _).
    + by vm_compute.
    + by vm_compute.
    + repeat constructor.
    + reflexivity.
    + repeat constructor.
Defined.

(** C9, as the code has it: for every second of the day the rendering is
    the described one, with a space before "am" and "pm" throughout, so
    that hour 12 shows as "12 pm" (and "12:30 pm"), not "12pm"; 0, 36000,
    64800, 36900 and 86399 give "0 am", "10 am", "6 pm", "10:15 am" and
    "11:59 pm". *)
Theorem render_time_as_described seconds :
  0 <= seconds <= 86399 →
  seconds_to_hours_and_minutes seconds = (seconds / 3600, (seconds / 60) mod 60)
  ∧ render_time seconds = render_time_spec seconds
  ∧ map render_time [0; 36000; 64800; 36900; 86399; 43200; 45000]
    = ["0 am"; "10 am"; "6 pm"; "10:15 am"; "11:59 pm"; "12 pm"; "12:30 pm"].
Proof.
  intros Hrange.
  assert (seconds / 60 / 60 = seconds / 3600) as Hhour.
  { rewrite Z.div_div by lia. done. }
  assert (0 <= seconds / 3600 < 24) as Hh.
  { split; [apply Z.div_pos; lia|apply Z.div_lt_upper_bound; lia]. }
  assert (0 <= (seconds / 60) mod 60 < 60) as Hm by (apply Z.mod_pos_bound; lia).
  split_and!; [by unfold seconds_to_hours_and_minutes; rewrite Hhour| |by vm_compute].
  unfold render_time, seconds_to_hours_and_minutes, hours_and_minutes_as_string,
    render_time_spec.
  rewrite Hhour.
  set (hour := seconds / 3600) in *. set (minute := (seconds / 60) mod 60) in *.
  assert (0 <= (if Z.ltb 12 hour then hour - 12 else hour) < 13) as Hshown.
  { destruct (Z.ltb_spec 12 hour); lia. }
  rewrite (format_int_hour _ Hshown).
  assert ((if Z.leb 12 hour then "pm" else "am")
          = (if Z.ltb hour 12 then "am" else "pm")) as ->.
  { destruct (Z.leb_spec 12 hour), (Z.ltb_spec hour 12); done || lia. }
  destruct (Z.eqb_spec minute 0); [done|].
  by rewrite (format_02d_minute _ Hm).
Qed.

Lemma render_time_as_described_witness :
  seconds_to_hours_and_minutes 36900 = (36900 / 3600, (36900 / 60) mod 60)
  ∧ render_time 36900 = render_time_spec 36900
  ∧ map render_time [0; 36000; 64800; 36900; 86399; 43200; 45000]
    = ["0 am"; "10 am"; "6 pm"; "10:15 am"; "11:59 pm"; "12 pm"; "12:30 pm"].
Proof. apply (render_time_as_described 36900). lia. Defined.

(** C9, as stated, fails at noon: the rendering of 43200 is "12 pm". *)
Lemma noon_is_rendered_with_a_space :
  render_time 43200 = "12 pm" ∧ render_time 43200 ≠ "12pm".
Proof. split; by vm_compute. Qed.

(** C10: an entry without ["type"], or whose type is neither ["open"] nor
    ["close"], is passed over: the loop body returns the state it was given
    (no error, the same current start, the same tuples), and the loop over
    a day's sorted list gives what it gives without that entry. *)
Theorem untyped_entry_skipped it :
  ¬ is_open it → ¬ is_close it →
  (∀ day_name st, process_item day_name st it = inr st)
  ∧ (∀ day_name st before after,
       process_items day_name st (sorted (before ++ it :: after))
       = process_items day_name st (sorted (before ++ after))).
Proof.
  intros Ho Hc. split; [intros; by apply process_item_skip|].
  intros day_name st before after.
  rewrite (process_items_filter _ (sorted (before ++ it :: after))).
  rewrite (process_items_filter _ (sorted (before ++ after))).
  rewrite !filter_sorted, !filter_app, filter_cons_False; [done|].
  by intros [|].
Qed.

Lemma untyped_entry_skipped_witness :
  process_item "monday" (LoopState [(1, Some 2)] None [] None) (Item None 5)
  = inr (LoopState [(1, Some 2)] None [] None)
  ∧ process_items "monday" (LoopState [] None [] None)
      (sorted ([open_item 7] ++ Item (Some "closed") 8 :: [close_item 9]))
    = process_items "monday" (LoopState [] None [] None)
        (sorted ([open_item 7] ++ [close_item 9])).
Proof.
  split.
  - apply (untyped_entry_skipped (Item None 5)); by vm_compute.
  - apply (untyped_entry_skipped (Item (Some "closed") 8)); by vm_compute.
Defined.

(** * Further properties *)

(** ** The formatter's docstring examples *)

Example to_string_docstring :
  opening_hours_to_string [DayRecord "monday" None]
  = Some (String.append "Monday: Closed" (String newline ""))
  ∧ opening_hours_to_string [DayRecord "monday" (Some [(36000, Some 64800)])]
    = Some (String.append "Monday: 10 am - 6 pm" (String newline ""))
  ∧ opening_hours_to_string
      [DayRecord "monday" (Some [(36000, Some 64800)]);
       DayRecord "tuesday" (Some [(43200, Some 75600)])]
    = Some (String.append "Monday: 10 am - 6 pm"
              (String newline
                 (String.append "Tuesday: 12 pm - 9 pm" (String newline "")))).
Proof. split_and!; by vm_compute. Qed.

(** ** Hours and minutes *)

(** X1: for every integer number of seconds, negative ones included, the
    minutes are between 0 and 59 and the seconds left over after the hours
    and minutes are between 0 and 59: seconds are dropped, never rounded. *)
Theorem seconds_are_dropped seconds :
  let '(hours, minutes) := seconds_to_hours_and_minutes seconds in
  0 <= minutes < 60
  ∧ 0 <= seconds - (3600 * hours + 60 * minutes) < 60.
Proof.
  unfold seconds_to_hours_and_minutes.
  pose proof (Z.div_mod seconds 60 ltac:(lia)) as Hs.
  pose proof (Z.mod_pos_bound seconds 60 ltac:(lia)) as Hsb.
  pose proof (Z.div_mod (seconds / 60) 60 ltac:(lia)) as Hm.
  pose proof (Z.mod_pos_bound (seconds / 60) 60 ltac:(lia)) as Hmb.
  lia.
Qed.

(** The renderings of the 1440 minutes of a day. *)
Lemma minute_renderings_NoDup :
  NoDup (map (λ n, hours_and_minutes_as_string (Z.of_nat n / 60, Z.of_nat n mod 60))
           (seq 0 1440)).
Proof. apply (bool_decide_unpack _). by vm_compute. Qed.

Lemma NoDup_map_inj {A B} (f : A → B) (l : list A) x y :
  NoDup (map f l) → x ∈ l → y ∈ l → f x = f y → x = y.
Proof.
  induction l as [|a l IH]; simpl; [by intros _ ?%elem_of_nil|].
  intros [Ha Hl]%NoDup_cons Hx Hy Heq.
  apply elem_of_cons in Hx as [->|Hx]; apply elem_of_cons in Hy as [->|Hy].
  - done.
  - destruct Ha. rewrite Heq. apply list_elem_of_In, in_map, list_elem_of_In, Hy.
  - destruct Ha. rewrite <- Heq. apply list_elem_of_In, in_map, list_elem_of_In, Hx.
  - by apply IH.
Qed.

(** X2: two seconds of the day that are rendered alike lie in the same
    minute: no two minutes of the day share a rendering (midnight is
    "0 am", noon "12 pm"). *)
Theorem render_time_distinguishes_minutes a b :
  0 <= a <= 86399 → 0 <= b <= 86399 →
  render_time a = render_time b → a / 60 = b / 60.
Proof.
  intros Ha Hb Heq.
  assert (∀ x, 0 <= x <= 86399 →
            Z.to_nat (x / 60) ∈ seq 0 1440
            ∧ render_time x
              = hours_and_minutes_as_string
                  (Z.of_nat (Z.to_nat (x / 60)) / 60, Z.of_nat (Z.to_nat (x / 60)) mod 60))
    as Hview.
  { intros x Hx.
    assert (0 <= x / 60 < 1440) as Hq.
    { split; [apply Z.div_pos; lia|apply Z.div_lt_upper_bound; lia]. }
    split; [apply list_elem_of_In, in_seq; lia|].
    by rewrite Z2Nat.id by lia. }
  destruct (Hview a Ha) as [Hina Hra], (Hview b Hb) as [Hinb Hrb].
  rewrite Hra, Hrb in Heq.
  pose proof (NoDup_map_inj _ _ _ _ minute_renderings_NoDup Hina Hinb Heq) as Hn.
  assert (0 <= a / 60) by (apply Z.div_pos; lia).
  assert (0 <= b / 60) by (apply Z.div_pos; lia).
  lia.
Qed.

Lemma render_time_distinguishes_minutes_witness : 36000 / 60 = 36059 / 60.
Proof.
  apply (render_time_distinguishes_minutes 36000 36059); [lia|lia|reflexivity].
Defined.

(** ** What the normalizer reads of its input *)

Lemma process_days_same_lookups hours_data1 hours_data2 day_names acc :
  Forall (λ d, hours_data1 !! d = hours_data2 !! d
               ∨ (missing hours_data1 d ∧ missing hours_data2 d)) day_names →
  process_days hours_data1 day_names acc = process_days hours_data2 day_names acc.
Proof.
  intros Hsame. revert acc.
  induction Hsame as [|d rest Hd Hrest IH]; intros [ad sc]; [done|].
  cbn [process_days].
  assert (process_day hours_data1 d (ad, sc) = process_day hours_data2 d (ad, sc)) as ->.
  { destruct Hd as [Hd|[H1 H2]].
    - unfold process_day. by rewrite Hd.
    - by rewrite !process_day_missing. }
  destruct (process_day hours_data2 d (ad, sc)); [done|]. apply IH.
Qed.

(** X3: on inputs in which every key holds a list of entries that all
    have an integer value (the sort reads the value of every entry under
    every key; the input type has no other entries), the result depends
    only on the lists of the seven weekday names: what the other keys hold
    has no effect on it, and an empty list is the same as no list. *)
Theorem only_weekday_lists_matter (hours_data1 hours_data2 : gmap string (list item)) :
  (∀ d, d ∈ DAY_NAMES →
     hours_data1 !! d = hours_data2 !! d
     ∨ (missing hours_data1 d ∧ missing hours_data2 d)) →
  parse_opening_hours hours_data1 = parse_opening_hours hours_data2.
Proof.
  intros Hsame. unfold parse_opening_hours.
  rewrite (process_days_same_lookups (sorted <$> hours_data1) (sorted <$> hours_data2));
    [done|].
  apply Forall_forall. intros d Hd.
  destruct (Hsame d Hd) as [Heq|[H1 H2]].
  - left. by rewrite !lookup_fmap, Heq.
  - right. by rewrite !missing_fmap_sorted.
Qed.

Lemma only_weekday_lists_matter_witness :
  parse_opening_hours
    {[ "monday" := [open_item 36000; close_item 64800];
       "friday" := [];
       "holiday" := [close_item 5] ]}
  = parse_opening_hours {[ "monday" := [open_item 36000; close_item 64800] ]}.
Proof.
  apply only_weekday_lists_matter.
  intros d Hd.
  repeat (apply elem_of_cons in Hd as [->|Hd]);
    [by left|by left|by left|by left|right; split; [by right|by left]
    |by left|by left|by apply elem_of_nil in Hd].
Defined.

(** ** Sorting again *)

Lemma sorted_of_ascending l : StronglySorted le_value l → sorted l = l.
Proof.
  induction 1 as [|x l Hl IH Hx]; [done|]. simpl. rewrite IH.
  by apply insert_by_value_le.
Qed.

(** X4: the call leaves in [hours_data] the sorted copy of every list; the
    normalizer on these sorted lists returns what it returned on the
    original ones, errors included. *)
Theorem second_call_same_result (hours_data : gmap string (list item)) :
  parse_opening_hours (sorted <$> hours_data) = parse_opening_hours hours_data.
Proof.
  unfold parse_opening_hours. rewrite <- map_fmap_compose.
  assert (sorted ∘ sorted <$> hours_data = sorted <$> hours_data) as ->; [|done].
  apply map_fmap_ext. intros d l _. simpl.
  apply sorted_of_ascending, sorted_ascending.
Qed.

(** ** The order of the entries in a list *)

Lemma insert_by_value_perm x l : insert_by_value x l ≡ₚ x :: l.
Proof.
  induction l as [|y l IH]; simpl; [done|].
  destruct (value x <=? value y); [done|].
  rewrite IH. apply Permutation_swap.
Qed.

Lemma sorted_perm l : sorted l ≡ₚ l.
Proof.
  induction l as [|x l IH]; simpl; [done|].
  by rewrite insert_by_value_perm, IH.
Qed.

Lemma ascending_perm_unique l1 :
  ∀ l2, StronglySorted le_value l1 → StronglySorted le_value l2 →
    l1 ≡ₚ l2 → NoDup (value <$> l1) → l1 = l2.
Proof.
  induction l1 as [|x l1 IH]; intros l2 Hs1 Hs2 Hperm Hnd.
  - by apply Permutation_nil_l in Hperm.
  - destruct l2 as [|y l2]; [by apply Permutation_nil_r in Hperm|].
    apply StronglySorted_inv in Hs1 as [Hs1 Hx].
    apply StronglySorted_inv in Hs2 as [Hs2 Hy].
    rewrite fmap_cons in Hnd. apply NoDup_cons in Hnd as [Hvx Hnd].
    assert (x = y) as ->.
    { destruct (decide (x = y)) as [|Hne]; [done|]. exfalso.
      assert (x ∈ l2) as Hx2.
      { assert (x ∈ y :: l2) as Hin by (rewrite <- Hperm; constructor).
        apply elem_of_cons in Hin as [|]; done. }
      assert (y ∈ l1) as Hy1.
      { assert (y ∈ x :: l1) as Hin by (rewrite Hperm; constructor).
        apply elem_of_cons in Hin as [|]; done. }
      rewrite Forall_forall in Hx, Hy.
      specialize (Hx y Hy1). specialize (Hy x Hx2). unfold le_value in *.
      apply Hvx. assert (value x = value y) as -> by lia.
      by apply list_elem_of_fmap_2. }
    f_equal. apply IH; [done..| |done]. by apply Permutation_cons_inv in Hperm.
Qed.

(** X5: when the values in each weekday's list are pairwise different, the
    order of the entries in the lists does not matter: two inputs whose
    weekday lists are rearrangements of each other give the same result. *)
Theorem entry_order_does_not_matter (hours_data1 hours_data2 : gmap string (list item)) :
  (∀ d, d ∈ DAY_NAMES →
     option_Forall2 (λ l1 l2, l1 ≡ₚ l2 ∧ NoDup (value <$> l1))
       (hours_data1 !! d) (hours_data2 !! d)) →
  parse_opening_hours hours_data1 = parse_opening_hours hours_data2.
Proof.
  intros Hsame. unfold parse_opening_hours.
  rewrite (process_days_same_lookups (sorted <$> hours_data1) (sorted <$> hours_data2));
    [done|].
  apply Forall_forall. intros d Hd. left. rewrite !lookup_fmap.
  destruct (Hsame d Hd) as [l1 l2 [Hperm Hnd]|]; [|done]. simpl. f_equal.
  apply ascending_perm_unique; [apply sorted_ascending..| |].
  - by rewrite !sorted_perm.
  - by rewrite sorted_perm.
Qed.

Lemma entry_order_does_not_matter_witness :
  parse_opening_hours
    {[ "monday" := [close_item 64800; open_item 50400; close_item 43200; open_item 36000] ]}
  = parse_opening_hours
      {[ "monday" := [open_item 36000; close_item 43200; open_item 50400; close_item 64800] ]}.
Proof.
  apply entry_order_does_not_matter.
  intros d Hd.
  repeat (apply elem_of_cons in Hd as [->|Hd]);
    [|by constructor..|by apply elem_of_nil in Hd].
  constructor. split.
  - apply (bool_decide_unpack _). by vm_compute.
  - apply (bool_decide_unpack _). by vm_compute.
Defined.

(** ** Closes without an open *)

(** X6: when monday to saturday raise nothing and keep a close other than
    0 for sunday, and sunday's list is not empty and its loop ends without
    a current start, the normalizer raises the lingering-close error. *)
Theorem lingering_close_raised hours_data all_days c items st :
  process_days (sorted <$> hours_data)
    ["monday"; "tuesday"; "wednesday"; "thursday"; "friday"; "saturday"]
    ([], None) = inr (all_days, Some c) →
  c ≠ 0 →
  hours_data !! "sunday" = Some items → items ≠ [] →
  process_items "sunday" (LoopState [] None all_days (Some c)) (sorted items) = inr st →
  st_current_start st = None →
  parse_opening_hours hours_data = inl LingeringCloseError.
Proof.
  intros Hweek Hc Hsun Hne Hrun Hcur.
  pose proof (process_items_sunday_close "sunday" (sorted items) ltac:(done) _ _ Hrun)
    as Hstash. simpl in Hstash.
  unfold parse_opening_hours.
  change DAY_NAMES
    with (["monday"; "tuesday"; "wednesday"; "thursday"; "friday"; "saturday"]
            ++ ["sunday"]).
  rewrite process_days_app, Hweek. cbv beta iota. rewrite process_days_single.
  rewrite (process_day_present _ "sunday" (sorted items)).
  - rewrite Hrun. unfold finish_day. rewrite Hcur, Hstash. simpl.
    by rewrite (proj2 (Z.eqb_neq c 0) Hc).
  - by rewrite lookup_fmap, Hsun.
  - by rewrite sorted_nil.
Qed.

Lemma lingering_close_raised_witness :
  parse_opening_hours
    {[ "monday" := [close_item 3600];
       "sunday" := [open_item 36000; close_item 64800] ]}
  = inl LingeringCloseError.
Proof.
  apply (lingering_close_raised _
           (closed_records ["monday"; "tuesday"; "wednesday"; "thursday"; "friday";
                            "saturday"])
           3600 [open_item 36000; close_item 64800]
           (LoopState [(36000, Some 64800)] None
              (closed_records ["monday"; "tuesday"; "wednesday"; "thursday"; "friday";
                               "saturday"])
              (Some 3600))).
  - by vm_compute.
  - lia.
  - reflexivity.
  - done.
  - reflexivity.
  - reflexivity.
Defined.

(** X15: when monday to saturday raise nothing and keep a close [c] other
    than 0 for sunday, sunday's loop raises nothing and ends with a current
    start [s], and no earlier record is left with an open last tuple, the
    normalizer returns, and sunday's record is sunday's finished tuples
    followed by [(s, c)]. *)
Theorem kept_close_ends_sunday hours_data all_days c items st s :
  process_days (sorted <$> hours_data)
    ["monday"; "tuesday"; "wednesday"; "thursday"; "friday"; "saturday"]
    ([], None) = inr (all_days, Some c) →
  c ≠ 0 →
  hours_data !! "sunday" = Some items →
  process_items "sunday" (LoopState [] None all_days (Some c)) (sorted items) = inr st →
  st_current_start st = Some s →
  check_lingering_open (st_all_days st) = None →
  parse_opening_hours hours_data
  = inr (st_all_days st
           ++ [DayRecord "sunday" (Some (st_hours st ++ [(s, Some c)]))]).
Proof.
  intros Hweek Hc Hsun Hrun Hcur Hcheck.
  assert (sorted items ≠ []) as Hne.
  { intros Hnil. rewrite Hnil in Hrun. injection Hrun as <-. done. }
  pose proof (process_items_sunday_close "sunday" (sorted items) ltac:(done) _ _ Hrun)
    as Hstash. simpl in Hstash.
  unfold parse_opening_hours.
  change DAY_NAMES
    with (["monday"; "tuesday"; "wednesday"; "thursday"; "friday"; "saturday"]
            ++ ["sunday"]).
  rewrite process_days_app, Hweek. cbv beta iota. rewrite process_days_single.
  rewrite (process_day_present _ "sunday" (sorted items))
    by (by rewrite ?lookup_fmap, ?Hsun).
  rewrite Hrun. unfold finish_day. rewrite Hcur, Hstash. simpl.
  rewrite (proj2 (Z.eqb_neq c 0) Hc). simpl.
  rewrite check_lingering_open_app, Hcheck.
  unfold make_record.
  destruct (st_hours st ++ [(s, Some c)]) as [|x hs] eqn:Hhs.
  { by destruct (st_hours st). }
  rewrite <- Hhs. simpl. by rewrite last_snoc.
Qed.

Lemma kept_close_ends_sunday_witness :
  parse_opening_hours
    {[ "monday" := [close_item 3600; open_item 36000; close_item 64800];
       "sunday" := [open_item 43200; close_item 50400; open_item 61200] ]}
  = inr ((DayRecord "monday" (Some [(36000, Some 64800)])
            :: closed_records ["tuesday"; "wednesday"; "thursday"; "friday"; "saturday"])
           ++ [DayRecord "sunday"
                 (Some ([(43200, Some 50400)] ++ [(61200, Some 3600)]))]).
Proof.
  apply (kept_close_ends_sunday
           {[ "monday" := [close_item 3600; open_item 36000; close_item 64800];
              "sunday" := [open_item 43200; close_item 50400; open_item 61200] ]}
           (DayRecord "monday" (Some [(36000, Some 64800)])
              :: closed_records ["tuesday"; "wednesday"; "thursday"; "friday";
                                 "saturday"])
           3600 [open_item 43200; close_item 50400; open_item 61200]
           (LoopState [(43200, Some 50400)] (Some 61200)
              (DayRecord "monday" (Some [(36000, Some 64800)])
                 :: closed_records ["tuesday"; "wednesday"; "thursday"; "friday";
                                    "saturday"])
              (Some 3600))
           61200).
  - by vm_compute.
  - lia.
  - reflexivity.
  - reflexivity.
  - reflexivity.
  - reflexivity.
Defined.

Lemma close_previous_day_closed ads d v :
  close_previous_day (ads ++ [DayRecord d None]) v = None.
Proof. unfold close_previous_day. by rewrite last_snoc. Qed.

Lemma not_monday_after pre p d post :
  DAY_NAMES = pre ++ p :: d :: post → d ≠ "monday".
Proof.
  intros Hsplit ->. pose proof NoDup_DAY_NAMES as Hnd. rewrite Hsplit in Hnd.
  unfold DAY_NAMES in Hsplit.
  destruct pre as [|m pre]; simplify_eq/=.
  apply NoDup_cons in Hnd as [Hnot _]. apply Hnot.
  apply elem_of_app. right. do 2 constructor.
Qed.

(** X7: a day, other than monday, whose sorted list begins with a close
    entry while the day before it is missing or empty, makes the normalizer
    raise: the invalid-close error for that entry, unless an earlier day
    raised first.  It never returns. *)
Theorem leading_close_after_closed_day hours_data pre p d post items it rest :
  DAY_NAMES = pre ++ p :: d :: post →
  missing hours_data p →
  hours_data !! d = Some items →
  sorted items = it :: rest → is_close it →
  parse_opening_hours hours_data = inl (InvalidCloseError (value it) d)
  ∨ ∃ e, process_days (sorted <$> hours_data) pre ([], None) = inl e
         ∧ parse_opening_hours hours_data = inl e.
Proof.
  intros Hsplit Hp Hd Hsorted Hclose.
  pose proof (not_monday_after _ _ _ _ Hsplit) as Hmon.
  unfold parse_opening_hours. rewrite Hsplit.
  rewrite process_days_app.
  destruct (process_days (sorted <$> hours_data) pre ([], None)) as [e|[ad sc]];
    [right; by exists e|left].
  cbn [process_days].
  rewrite process_day_missing by by apply missing_fmap_sorted.
  rewrite (process_day_present _ d (it :: rest));
    [|by rewrite lookup_fmap, Hd; simpl; rewrite Hsorted|done].
  unfold process_items, process_item. rewrite Hclose. simpl.
  rewrite close_previous_day_closed.
  by rewrite (proj2 (String.eqb_neq d "monday") Hmon).
Qed.

Lemma leading_close_after_closed_day_witness :
  parse_opening_hours
    {[ "tuesday" := [open_item 36000; close_item 64800];
       "thursday" := [open_item 36000; close_item 3600] ]}
  = inl (InvalidCloseError (value (close_item 3600)) "thursday")
  ∨ ∃ e, process_days
           (sorted <$> ({[ "tuesday" := [open_item 36000; close_item 64800];
                           "thursday" := [open_item 36000; close_item 3600] ]}
                          : gmap string (list item)))
           ["monday"; "tuesday"] ([], None) = inl e
         ∧ parse_opening_hours
             {[ "tuesday" := [open_item 36000; close_item 64800];
                "thursday" := [open_item 36000; close_item 3600] ]}
           = inl e.
Proof.
  apply (leading_close_after_closed_day _ ["monday"; "tuesday"] "wednesday" "thursday"
           ["friday"; "saturday"; "sunday"]
           [open_item 36000; close_item 3600] (close_item 3600) [open_item 36000]).
  - reflexivity.
  - by left.
  - reflexivity.
  - reflexivity.
  - reflexivity.
Defined.

(** ** The tuples of a day do not touch or overlap *)

Lemma disjoint_ascending_nil : disjoint_ascending [].
Proof. intros i s1 e1 s2 e2 Hi. by rewrite lookup_nil in Hi. Qed.

Lemma disjoint_ascending_snoc hs y :
  disjoint_ascending (hs ++ [y]) ↔
  disjoint_ascending hs
  ∧ ∀ s e, last hs = Some (s, e) → ∃ v, e = Some v ∧ s <= v < y.1.
Proof.
  split.
  - intros Hda. split.
    + intros i s1 e1 s2 e2 H1 H2. apply (Hda i s1 e1 s2 e2).
      * by apply lookup_app_l_Some.
      * by apply lookup_app_l_Some.
    + intros s e [hs' ->]%last_Some. destruct y as [s2 e2].
      apply (Hda (length hs') s e s2 e2).
      * rewrite <- app_assoc. simpl. by apply list_lookup_middle.
      * rewrite lookup_app_r; rewrite length_app; simpl; [|lia].
        by replace (S (length hs') - (length hs' + 1))%nat with 0%nat by lia.
  - intros [Hda Hlast] i s1 e1 s2 e2 H1 H2.
    pose proof (lookup_lt_Some _ _ _ H2) as Hlen. rewrite length_app in Hlen.
    simpl in Hlen.
    destruct (decide (S i < length hs)%nat) as [Hlt|Hge].
    + rewrite lookup_app_l in H1, H2 by lia. by apply (Hda i s1 e1 s2 e2).
    + assert (S i = length hs) as Hi by lia.
      rewrite lookup_app_l in H1 by lia.
      rewrite lookup_app_r in H2 by lia.
      replace (S i - length hs)%nat with 0%nat in H2 by lia. simpl in H2.
      injection H2 as ->. apply (Hlast s1 e1).
      rewrite last_lookup. by replace (pred (length hs)) with i by lia.
Qed.

Lemma disjoint_ascending_change_end hs s e e' :
  disjoint_ascending (hs ++ [(s, e)]) → disjoint_ascending (hs ++ [(s, e')]).
Proof. rewrite !disjoint_ascending_snoc. by simpl. Qed.

Lemma item_step_separated day_name it rest st st' :
  item_step day_name it st st' →
  Forall (le_value it) rest →
  day_separated (it :: rest) st → days_separated (st_all_days st) →
  day_separated rest st' ∧ days_separated (st_all_days st').
Proof.
  unfold day_separated, bounded_by.
  destruct 1 as [st Ho Hc|hs cs ad sc Ho Hcs Hl|hs s cs ad sc Ho Hcs
                |ads prev hs s e sc Hc|ad sc Hc -> Hprev|hs c ad sc Hc];
    simpl; intros Hsorted (Hda & Hco & Hend & Hcur) Had.
  - split; [|done]. split_and!; [done..| |].
    + intros s e Hlast. by eapply Forall_cons_1, Hend.
    + intros c Hc'. destruct (Hcur c Hc') as [Hb Hlt]. split; [|done].
      by eapply Forall_cons_1.
  - split; [|done]. split_and!; [done..| |].
    + intros s e Hlast. by eapply Forall_cons_1, Hend.
    + intros c [= <-]. split.
      * eapply Forall_impl; [exact Hsorted|]. unfold le_value. naive_solver.
      * intros s e Hlast. specialize (Hend s e Hlast).
        apply Forall_cons_1 in Hend as [Hle _].
        destruct (decide (e = value it)) as [->|]; [by destruct (Hl s)|lia].
  - apply disjoint_ascending_snoc in Hda as [Hda Hlast].
    apply Forall_app in Hco as [Hco Hlastco]. rewrite Forall_singleton in Hlastco.
    destruct Hlastco as (v & [= <-] & Hsv). simpl in Hsv.
    split; [|done]. split_and!; [done..| |].
    + intros s0 e0 Hl0. destruct (Hlast s0 (Some e0) Hl0) as (v & [= <-] & Hv).
      simpl in Hv. eapply Forall_impl; [exact Hsorted|].
      unfold le_value. intros z Hz. simpl. lia.
    + intros c [= <-]. split.
      * eapply Forall_impl; [exact Hsorted|].
        unfold le_value. intros z Hz. simpl. lia.
      * intros s0 e0 Hl0. destruct (Hlast s0 (Some e0) Hl0) as (v & [= <-] & Hv).
        simpl in Hv. lia.
  - split.
    + split_and!; [done..| |done]. intros s0 e0 Hl0. done.
    + unfold days_separated in *. apply Forall_app in Had as [Hads Hprev].
      rewrite Forall_singleton in Hprev. apply Forall_app. split; [done|].
      rewrite Forall_singleton. intros hs' [= <-].
      destruct (Hprev _ eq_refl) as [_ Hda']. split; [by destruct hs|].
      by eapply disjoint_ascending_change_end.
  - split; [|done]. split_and!; [done..| |done]. intros s0 e0 Hl0. done.
  - destruct (Hcur c eq_refl) as [Hb Hlt].
    apply Forall_cons_1 in Hb as [Hcv Hb].
    split; [|done]. split_and!.
    + apply disjoint_ascending_snoc. split; [done|]. intros s0 e0 Hl0.
      assert (closed_ordered (s0, e0)) as (v & Hv & Hsv).
      { rewrite Forall_forall in Hco. apply Hco. by eapply last_Some_elem_of. }
      simpl in Hv, Hsv. subst e0. exists v. split; [done|]. simpl.
      specialize (Hlt s0 v Hl0). lia.
    + apply Forall_app. split; [done|]. rewrite Forall_singleton.
      by exists (value it).
    + intros s0 e0. rewrite last_snoc. intros [= <- <-].
      eapply Forall_impl; [exact Hsorted|]. unfold le_value. naive_solver.
    + done.
Qed.

Lemma process_items_separated day_name items :
  StronglySorted le_value items →
  ∀ st st',
    process_items day_name st items = inr st' →
    day_separated items st → days_separated (st_all_days st) →
    day_separated [] st' ∧ days_separated (st_all_days st').
Proof.
  induction 1 as [|it rest Hrest IH Hit]; intros st st'.
  - by intros [= <-].
  - intros (st1 & Hstep & Hitems)%process_items_cons Hday Had.
    destruct (item_step_separated _ _ _ _ _ Hstep Hit Hday Had) as [Hday1 Had1].
    by apply (IH st1 st').
Qed.

Lemma finish_day_separated day_name st all_days sunday_close :
  finish_day day_name st = inr (all_days, sunday_close) →
  day_separated [] st → days_separated (st_all_days st) →
  days_separated all_days.
Proof.
  unfold finish_day, days_separated. intros Hfin (Hda & Hco & _ & Hcur) Had.
  assert (∀ c x, st_current_start st = Some c →
            ∀ hs, hours (make_record day_name (st_hours st ++ [(c, x)])) = Some hs →
                  hs ≠ [] ∧ disjoint_ascending hs) as Hsnoc.
  { intros c x Hc hs. rewrite hours_make_record_snoc. intros [= <-].
    split; [by destruct (st_hours st)|].
    apply disjoint_ascending_snoc. split; [done|]. intros s0 e0 Hl0.
    assert (closed_ordered (s0, e0)) as (v & Hv & Hsv).
    { rewrite Forall_forall in Hco. apply Hco. by eapply last_Some_elem_of. }
    simpl in Hv, Hsv. subst e0. exists v. split; [done|]. simpl.
    destruct (Hcur c Hc) as [_ Hlt]. specialize (Hlt s0 v Hl0). lia. }
  assert (∀ hs, hours (make_record day_name (st_hours st)) = Some hs →
                hs ≠ [] ∧ disjoint_ascending hs) as Hsame.
  { intros hs [-> Hne]%hours_make_record. done. }
  destruct (st_current_start st) as [c|] eqn:Hc;
    destruct (String.eqb day_name "sunday" && truthy (st_sunday_close st));
    simplify_eq; apply Forall_app; split; try done; rewrite Forall_singleton;
    eauto.
Qed.

Lemma process_days_separated hours_data day_names :
  sorted_data hours_data →
  ∀ all_days sunday_close all_days' sunday_close',
    process_days hours_data day_names (all_days, sunday_close)
    = inr (all_days', sunday_close') →
    days_separated all_days → days_separated all_days'.
Proof.
  intros Hsorted. induction day_names as [|d rest IH]; intros ad sc ad' sc'.
  - simpl. by intros [= <- _].
  - cbn [process_days].
    destruct (process_day hours_data d (ad, sc)) as [e|[ad1 sc1]] eqn:Hday; [done|].
    intros Hrest Had. eapply IH; [done|]. clear Hrest IH.
    unfold process_day in Hday.
    assert (days_separated (ad ++ [DayRecord d None])) as Hnone.
    { apply Forall_app. split; [done|]. by rewrite Forall_singleton. }
    destruct (hours_data !! d) as [[|it items]|] eqn:Hd; [by simplify_eq| |by simplify_eq].
    destruct (process_items _ _ _) as [e|st] eqn:Hitems; [done|].
    destruct (process_items_separated d (it :: items) (Hsorted _ _ Hd) _ _ Hitems)
      as [Hday1 Had1]; [|done|by eapply finish_day_separated].
    split_and!; simpl; [apply disjoint_ascending_nil|constructor|done..].
Qed.

(** X8: in every result, the hours of a day are [None] or a list that is
    not empty, and of two consecutive tuples of a day the earlier one ends
    at or after its start and strictly before the start of the later one:
    the tuples of a day are in ascending order and neither touch nor
    overlap. *)
Theorem hours_are_separated hours_data out r hs :
  parse_opening_hours hours_data = inr out →
  r ∈ out → hours r = Some hs →
  hs ≠ []
  ∧ ∀ i s1 e1 s2 e2,
      hs !! i = Some (s1, e1) → hs !! S i = Some (s2, e2) →
      ∃ v, e1 = Some v ∧ s1 <= v < s2.
Proof.
  intros (sc & Hrun & _)%parse_opening_hours_inr Hr Hhs.
  apply process_days_separated in Hrun; [|apply sorted_data_fmap|constructor].
  unfold days_separated in Hrun. rewrite Forall_forall in Hrun.
  by apply (Hrun r Hr hs).
Qed.

Lemma hours_are_separated_witness :
  [(36000, Some 43200); (50400, Some 3600)] ≠ []
  ∧ ∀ i s1 e1 s2 e2,
      [(36000, Some 43200); (50400, Some 3600)] !! i = Some (s1, e1) →
      [(36000, Some 43200); (50400, Some 3600)] !! S i = Some (s2, e2) →
      ∃ v, e1 = Some v ∧ s1 <= v < s2.
Proof.
  apply (hours_are_separated
           {[ "friday" := [open_item 50400; close_item 43200; open_item 36000];
              "saturday" := [close_item 3600] ]}
           (closed_records ["monday"; "tuesday"; "wednesday"; "thursday"]
              ++ [DayRecord "friday" (Some [(36000, Some 43200); (50400, Some 3600)])]
              ++ closed_records ["saturday"; "sunday"])
           (DayRecord "friday" (Some [(36000, Some 43200); (50400, Some 3600)]))).
  - by vm_compute.
  - repeat constructor.
  - reflexivity.
Defined.

(** ** From spans to entries and back *)

Lemma events_of_bounded v spans :
  well_separated spans → Forall (λ y, v < y.1) spans →
  Forall (λ it, v <= value it) (events_of spans).
Proof.
  induction spans as [|x rest IH]; simpl; [constructor|].
  intros (Hx & _ & Hrest) [Hv Hall]%Forall_cons_1.
  repeat constructor; simpl; [lia..|]. by apply IH.
Qed.

Lemma events_of_ascending spans :
  well_separated spans → StronglySorted le_value (events_of spans).
Proof.
  induction spans as [|x rest IH]; simpl; [constructor|].
  intros (Hx & Hlater & Hrest).
  pose proof (events_of_bounded _ _ Hrest Hlater) as Hb.
  constructor; [constructor; [by apply IH|]|]; unfold le_value; simpl.
  - done.
  - constructor; [simpl; lia|].
    eapply Forall_impl; [exact Hb|]. simpl. intros z Hz. lia.
Qed.

Lemma process_items_events day_name all_days sunday_close spans :
  ∀ acc,
    well_separated spans →
    (∀ s0 e0, last acc = Some (s0, Some e0) → Forall (λ y, e0 < y.1) spans) →
    process_items day_name (LoopState acc None all_days sunday_close) (events_of spans)
    = inr (LoopState (acc ++ closed_spans spans) None all_days sunday_close).
Proof.
  induction spans as [|x rest IH]; intros acc; simpl.
  - intros _ _. by rewrite app_nil_r.
  - intros (Hx & Hlater & Hrest) Hacc.
    assert (process_item day_name (LoopState acc None all_days sunday_close)
              (open_item x.1)
            = inr (LoopState acc (Some x.1) all_days sunday_close)) as ->.
    { unfold process_item. simpl.
      destruct (last acc) as [[s0 e0]|] eqn:Hlast; [|done].
      destruct (decide (Some x.1 = e0)) as [<-|]; [|done].
      specialize (Hacc s0 x.1 eq_refl). apply Forall_cons_1 in Hacc as [Hlt _].
      lia. }
    unfold process_item at 1. simpl.
    rewrite IH; [by rewrite <- app_assoc|done|].
    intros s0 e0. rewrite last_snoc. by intros [= _ <-].
Qed.

Lemma process_day_events (week : gmap string (list (Z * Z))) day_name all_days :
  (∀ spans, week !! day_name = Some spans → well_separated spans) →
  process_day (sorted <$> (events_of <$> week)) day_name (all_days, None)
  = inr (all_days ++ [week_record week day_name], None).
Proof.
  intros Hsep. unfold week_record.
  destruct (week !! day_name) as [[|x rest]|] eqn:Hd.
  - apply process_day_missing. right. by rewrite !lookup_fmap, Hd.
  - specialize (Hsep _ eq_refl).
    rewrite (process_day_present _ _ (events_of (x :: rest))).
    + rewrite (process_items_events _ _ _ _ []) by done.
      unfold finish_day. simpl. by rewrite andb_false_r.
    + rewrite !lookup_fmap, Hd. simpl. f_equal.
      by apply (sorted_of_ascending (events_of (x :: rest))), events_of_ascending.
    + done.
  - apply process_day_missing. left. by rewrite !lookup_fmap, Hd.
Qed.

Lemma check_lingering_open_week (week : gmap string (list (Z * Z))) day_names :
  check_lingering_open (map (week_record week) day_names) = None.
Proof.
  induction day_names as [|d rest IH]; [done|].
  cbn [map check_lingering_open]. unfold week_record at 1. cbn [hours day].
  destruct (week !! d) as [[|x spans]|]; [done| |done].
  assert (∃ s e, last (closed_spans (x :: spans)) = Some (s, Some e)) as (s & e & ->);
    [|done].
  destruct (last (x :: spans)) as [y|] eqn:Hlast; [|by apply last_None in Hlast].
  apply last_Some in Hlast as [l' ->]. exists y.1, y.2.
  unfold closed_spans. rewrite map_app. cbn [map]. by rewrite last_snoc.
Qed.

(** X9: take for each weekday a list of spans, each ending at or after its
    start and before the start of the later ones.  The normalizer, given
    for each day the open and close entries of its spans, returns exactly
    these spans, day by day, with [None] for the days without span. *)
Theorem spans_round_trip (week : gmap string (list (Z * Z))) :
  (∀ d spans, d ∈ DAY_NAMES → week !! d = Some spans → well_separated spans) →
  parse_opening_hours (events_of <$> week) = inr (map (week_record week) DAY_NAMES).
Proof.
  intros Hsep. unfold parse_opening_hours.
  assert (∀ day_names all_days,
            Forall (λ d, d ∈ DAY_NAMES) day_names →
            process_days (sorted <$> (events_of <$> week)) day_names (all_days, None)
            = inr (all_days ++ map (week_record week) day_names, None)) as Hrun.
  { induction day_names as [|d rest IH]; intros ad [Hd Hrest]%Forall_cons_1 ||
      intros ad _.
    - simpl. by rewrite app_nil_r.
    - cbn [process_days]. rewrite process_day_events by eauto.
      rewrite IH by done. simpl. by rewrite <- app_assoc. }
  rewrite Hrun by by apply Forall_forall.
  cbv beta iota. by rewrite app_nil_l, check_lingering_open_week.
Qed.

Lemma spans_round_trip_witness :
  parse_opening_hours
    (events_of <$> ({[ "monday" := [(36000, 43200); (50400, 64800)];
                       "tuesday" := [];
                       "sunday" := [(0, 0); (43200, 86399)] ]}
                      : gmap string (list (Z * Z))))
  = inr (map (week_record {[ "monday" := [(36000, 43200); (50400, 64800)];
                             "tuesday" := [];
                             "sunday" := [(0, 0); (43200, 86399)] ]}) DAY_NAMES).
Proof.
  apply spans_round_trip. intros d spans Hd.
  repeat (apply elem_of_cons in Hd as [->|Hd]);
    [| | | | | | |by apply elem_of_nil in Hd];
    intros Hl; vm_compute in Hl; simplify_eq;
    simpl; repeat (split || constructor); simpl; lia.
Defined.

(** ** Where the starts and ends come from *)

Lemma next_day_split pre p d post :
  DAY_NAMES = pre ++ p :: d :: post → next_day p = d.
Proof.
  unfold DAY_NAMES. intros Hsplit.
  repeat (destruct pre as [|? pre]; simplify_eq/=; try done).
Qed.

Lemma item_step_sourced hours_data current src it st st' :
  item_step current it st st' →
  hours_data !! current = Some src → it ∈ src →
  day_sourced src st →
  days_sourced hours_data current (st_all_days st) (st_sunday_close st) →
  day_sourced src st'
  ∧ days_sourced hours_data current (st_all_days st') (st_sunday_close st').
Proof.
  unfold day_sourced, days_sourced.
  destruct 1 as [st Ho Hc|hs cs ad sc Ho Hcs Hl|hs s cs ad sc Ho Hcs
                |ads prev hs s e sc Hc|ad sc Hc -> Hprev|hs c ad sc Hc];
    simpl; intros Hsrc Hit (Hhs & Hcur) (Had & Hlast & Hsc).
  - done.
  - split; [|done]. split; [done|]. intros c [= <-]. by exists it.
  - apply Forall_app in Hhs as [Hhs Hx]. rewrite Forall_singleton in Hx.
    split; [|done]. split; [done|]. intros c [= <-]. apply Hx.
  - split; [done|]. split_and!; [| |done].
    2:{ intros prev0. rewrite last_snoc. intros [= <-]. simpl.
        apply (Hlast (DayRecord prev (Some (hs ++ [(s, e)])))). by rewrite last_snoc. }
    apply Forall_app in Had as [Hads Hrec]. rewrite Forall_singleton in Hrec.
    apply Forall_app. split; [done|]. rewrite Forall_singleton.
    intros hs' x [= <-] Hx. simpl.
    apply elem_of_app in Hx as [Hx|Hx%list_elem_of_singleton].
    + apply (Hrec (hs ++ [(s, e)]) x); [done|]. apply elem_of_app. by left.
    + subst x. simpl. split.
      * apply (Hrec (hs ++ [(s, e)]) (s, e)); [done|].
        apply elem_of_app. right. by apply list_elem_of_singleton.
      * intros v [= <-]. right.
        rewrite last_snoc in Hlast. pose proof (Hlast _ eq_refl) as Hn.
        simpl in Hn. rewrite Hn. by exists src, it.
  - split; [done|]. split_and!; [done..|]. intros v [= <-]. by exists src, it.
  - split; [|done]. split; [|done]. apply Forall_app. split; [done|].
    rewrite Forall_singleton. split; simpl; [by apply Hcur|].
    intros v [= <-]. by exists it.
Qed.

Lemma process_items_sourced hours_data current src items :
  hours_data !! current = Some src →
  Forall (λ it, it ∈ src) items →
  ∀ st st',
    process_items current st items = inr st' →
    day_sourced src st →
    days_sourced hours_data current (st_all_days st) (st_sunday_close st) →
    day_sourced src st'
    ∧ days_sourced hours_data current (st_all_days st') (st_sunday_close st').
Proof.
  intros Hsrc. induction 1 as [|it rest Hit Hrest IH]; intros st st'.
  - by intros [= <-].
  - intros (st1 & Hstep & Hitems)%process_items_cons Hday Had.
    destruct (item_step_sourced _ _ _ _ _ _ Hstep Hsrc Hit Hday Had) as [Hday1 Had1].
    by apply (IH st1 st').
Qed.

Lemma finish_day_sourced hours_data current src st all_days sunday_close :
  finish_day current st = inr (all_days, sunday_close) →
  hours_data !! current = Some src →
  day_sourced src st →
  days_sourced hours_data current (st_all_days st) (st_sunday_close st) →
  Forall (record_sourced hours_data) all_days
  ∧ ∀ v, sunday_close = Some v → entry_of hours_data "monday" is_close v.
Proof.
  unfold finish_day. intros Hfin Hsrc (Hhs & Hcur) (Had & _ & Hsc).
  assert (∀ x, x ∈ st_hours st →
            entry_of hours_data current is_open x.1
            ∧ ∀ v, x.2 = Some v →
                entry_of hours_data current is_close v
                ∨ entry_of hours_data (next_day current) is_close v) as Hold.
  { intros x Hx. rewrite Forall_forall in Hhs. destruct (Hhs x Hx) as [Ho Hc].
    split.
    - destruct Ho as (it & ? & ? & ?). by exists src, it.
    - intros v Hv. left. destruct (Hc v Hv) as (it & ? & ? & ?). by exists src, it. }
  assert (record_sourced hours_data (make_record current (st_hours st))) as Hsame.
  { intros hs x [-> _]%hours_make_record Hx. by apply Hold. }
  assert (∀ c e, st_current_start st = Some c →
            (∀ v, e = Some v → entry_of hours_data (next_day current) is_close v) →
            record_sourced hours_data (make_record current (st_hours st ++ [(c, e)])))
    as Hsnoc.
  { intros c e Hc He hs x. rewrite hours_make_record_snoc. intros [= <-] Hx.
    apply elem_of_app in Hx as [Hx|Hx%list_elem_of_singleton]; [by apply Hold|].
    subst x. simpl. split.
    - destruct (Hcur c Hc) as (it & ? & ? & ?). by exists src, it.
    - intros v Hv. right. by apply He. }
  destruct (st_current_start st) as [c|] eqn:Hc;
    destruct (String.eqb_spec current "sunday") as [->|Hsun];
    destruct (truthy (st_sunday_close st)); simpl in Hfin; simplify_eq;
    (split; [|done]); apply Forall_app; (split; [done|]); rewrite Forall_singleton;
    try done; by apply Hsnoc.
Qed.

Lemma map_day_shape all_days : map day all_days = (map shape all_days).*1.
Proof. induction all_days as [|r ad IH]; [done|]. simpl. by f_equal. Qed.

Lemma process_days_sourced hours_data day_names :
  ∀ pre all_days sunday_close all_days' sunday_close',
    DAY_NAMES = pre ++ day_names → map day all_days = pre →
    Forall (record_sourced hours_data) all_days →
    (∀ v, sunday_close = Some v → entry_of hours_data "monday" is_close v) →
    process_days (sorted <$> hours_data) day_names (all_days, sunday_close)
    = inr (all_days', sunday_close') →
    Forall (record_sourced hours_data) all_days'.
Proof.
  induction day_names as [|cur rest IH]; intros pre ad sc ad' sc' Hsplit Hpre Had Hsc.
  - simpl. by intros [= <- _].
  - cbn [process_days].
    destruct (process_day (sorted <$> hours_data) cur (ad, sc)) as [e|[ad1 sc1]]
      eqn:Hday; [done|].
    intros Hrest.
    assert (map day ad1 = pre ++ [cur]) as Hpre1.
    { apply process_day_shape in Hday as (b & Hshape & _).
      by rewrite !map_day_shape, Hshape, fmap_app, <- map_day_shape, Hpre. }
    assert (Forall (record_sourced hours_data) ad1
            ∧ ∀ v, sc1 = Some v → entry_of hours_data "monday" is_close v)
      as [Had1 Hsc1].
    { unfold process_day in Hday. rewrite lookup_fmap in Hday.
      assert (Forall (record_sourced hours_data) (ad ++ [DayRecord cur None]))
        as Hnone.
      { apply Forall_app. split; [done|]. by rewrite Forall_singleton. }
      destruct (hours_data !! cur) as [l|] eqn:Hl; simpl in Hday;
        [|by simplify_eq].
      destruct (sorted l) as [|it items] eqn:Hsorted; [by simplify_eq|].
      destruct (process_items _ _ _) as [e|st] eqn:Hitems; [done|].
      destruct (process_items_sourced hours_data cur l (it :: items) Hl) with
        (2 := Hitems) as [Hday1 Hdays1].
      - rewrite <- Hsorted. apply Forall_forall. intros x Hx.
        by rewrite sorted_perm in Hx.
      - split; [constructor|done].
      - split_and!; [done| |done]. simpl.
        intros prev [ad0 ->]%last_Some.
        rewrite map_app in Hpre. simpl in Hpre. subst pre.
        rewrite <- app_assoc in Hsplit. simpl in Hsplit.
        by eapply next_day_split.
      - by eapply finish_day_sourced. }
    eapply (IH (pre ++ [cur])); [by rewrite <- app_assoc|done..].
Qed.

Lemma parse_opening_hours_sourced hours_data out :
  parse_opening_hours hours_data = inr out → Forall (record_sourced hours_data) out.
Proof.
  intros (sc & Hrun & _)%parse_opening_hours_inr.
  eapply (process_days_sourced hours_data DAY_NAMES [] [] None);
    [done|done|constructor|done|exact Hrun].
Qed.

Lemma parse_opening_hours_closed hours_data out r hs x :
  parse_opening_hours hours_data = inr out →
  r ∈ out → hours r = Some hs → x ∈ hs → is_Some x.2.
Proof.
  intros Hout Hr Hhs Hx.
  pose proof (parse_opening_hours_ordered _ _ Hout) as Hord.
  apply parse_opening_hours_inr in Hout as (sc & _ & Hcheck).
  rewrite check_lingering_open_None, Forall_forall in Hcheck.
  unfold days_ordered in Hord. rewrite Forall_forall in Hord.
  specialize (Hord r Hr). specialize (Hcheck r Hr hs).
  destruct (last hs) as [y|] eqn:Hlast.
  2:{ apply last_None in Hlast. subst hs. by apply elem_of_nil in Hx. }
  apply last_Some in Hlast as [hs' ->].
  apply elem_of_app in Hx as [Hx|Hx%list_elem_of_singleton].
  - specialize (Hord hs' y Hhs). rewrite Forall_forall in Hord.
    destruct (Hord x Hx) as (e & -> & _). by eexists.
  - subst y. destruct x as [s [e|]]; [by eexists|]. by destruct (Hcheck s Hhs).
Qed.

(** X10: in every result, the start of a tuple is the value of an open
    entry in the list of its day, and its end is the value of a close entry
    in the list of its day or of the next day (monday for sunday): the
    normalizer invents no time and moves none further than one day. *)
Theorem tuples_come_from_entries hours_data out r hs s e :
  parse_opening_hours hours_data = inr out →
  r ∈ out → hours r = Some hs → (s, e) ∈ hs →
  entry_of hours_data (day r) is_open s
  ∧ ∃ v, e = Some v
         ∧ (entry_of hours_data (day r) is_close v
            ∨ entry_of hours_data (next_day (day r)) is_close v).
Proof.
  intros Hout Hr Hhs Hx.
  destruct (parse_opening_hours_closed _ _ _ _ _ Hout Hr Hhs Hx) as [v Hv].
  simpl in Hv. subst e.
  apply parse_opening_hours_sourced in Hout. rewrite Forall_forall in Hout.
  destruct (Hout r Hr hs (s, Some v) Hhs Hx) as [Hs He].
  split; [done|]. exists v. split; [done|]. by apply He.
Qed.

Lemma tuples_come_from_entries_witness :
  entry_of ({[ "saturday" := [open_item 61200]; "sunday" := [close_item 3600] ]}
              : gmap string (list item)) "saturday" is_open 61200
  ∧ ∃ v, Some 3600 = Some v
         ∧ (entry_of ({[ "saturday" := [open_item 61200]; "sunday" := [close_item 3600] ]}
                        : gmap string (list item)) "saturday" is_close v
            ∨ entry_of ({[ "saturday" := [open_item 61200]; "sunday" := [close_item 3600] ]}
                          : gmap string (list item)) (next_day "saturday") is_close v).
Proof.
  apply (tuples_come_from_entries
           {[ "saturday" := [open_item 61200]; "sunday" := [close_item 3600] ]}
           (closed_records ["monday"; "tuesday"; "wednesday"; "thursday"; "friday"]
              ++ [DayRecord "saturday" (Some [(61200, Some 3600)]);
                  DayRecord "sunday" None])
           (DayRecord "saturday" (Some [(61200, Some 3600)]))
           [(61200, Some 3600)]).
  - by vm_compute.
  - repeat constructor.
  - reflexivity.
  - repeat constructor.
Defined.

(** X11: when the values of all entries of the input lie between [lo] and
    [hi] (0 and 86399 for validated input), so do the starts and the ends
    of all tuples of the result. *)
Theorem values_stay_in_range (hours_data : gmap string (list item)) lo hi out r hs s e :
  (∀ d l it, hours_data !! d = Some l → it ∈ l → lo <= value it <= hi) →
  parse_opening_hours hours_data = inr out →
  r ∈ out → hours r = Some hs → (s, e) ∈ hs →
  lo <= s <= hi ∧ ∃ v, e = Some v ∧ lo <= v <= hi.
Proof.
  intros Hrange Hout Hr Hhs Hx.
  destruct (parse_opening_hours_closed _ _ _ _ _ Hout Hr Hhs Hx) as [v Hv].
  simpl in Hv. subst e.
  apply parse_opening_hours_sourced in Hout. rewrite Forall_forall in Hout.
  destruct (Hout r Hr hs (s, Some v) Hhs Hx) as [Hs He]. simpl in Hs, He.
  split.
  - destruct Hs as (l & it & Hl & Hit & _ & <-). by eapply Hrange.
  - exists v. split; [done|].
    destruct (He v eq_refl) as [Hc|Hc]; destruct Hc as (l & it & Hl & Hit & _ & <-);
      by eapply Hrange.
Qed.

Lemma values_stay_in_range_witness :
  0 <= 61200 <= 86399 ∧ ∃ v, Some 3600 = Some v ∧ 0 <= v <= 86399.
Proof.
  apply (values_stay_in_range
           {[ "saturday" := [open_item 61200]; "sunday" := [close_item 3600] ]}
           0 86399
           (closed_records ["monday"; "tuesday"; "wednesday"; "thursday"; "friday"]
              ++ [DayRecord "saturday" (Some [(61200, Some 3600)]);
                  DayRecord "sunday" None])
           (DayRecord "saturday" (Some [(61200, Some 3600)]))
           [(61200, Some 3600)]).
  - intros d l it Hl Hit.
    destruct (decide (d = "saturday")) as [->|Hsat].
    { vm_compute in Hl. simplify_eq. apply list_elem_of_singleton in Hit as ->.
      simpl. lia. }
    destruct (decide (d = "sunday")) as [->|Hsun].
    { vm_compute in Hl. simplify_eq. apply list_elem_of_singleton in Hit as ->.
      simpl. lia. }
    rewrite lookup_insert_ne, lookup_singleton_ne in Hl by done. done.
  - by vm_compute.
  - repeat constructor.
  - reflexivity.
  - repeat constructor.
Defined.

(** ** The text of the formatter *)

Lemma count_char_append c s1 s2 :
  count_char c (String.append s1 s2) = (count_char c s1 + count_char c s2)%nat.
Proof. induction s1 as [|a s1 IH]; simpl; [done|]. rewrite IH. lia. Qed.

Lemma append_assoc s1 s2 s3 :
  String.append (String.append s1 s2) s3 = String.append s1 (String.append s2 s3).
Proof.
  induction s1 as [|a s1 IH]; [done|].
  change (String a (String.append (String.append s1 s2) s3)
          = String a (String.append s1 (String.append s2 s3))).
  by f_equal.
Qed.

Lemma append_empty_r s : String.append s EmptyString = s.
Proof.
  induction s as [|a s IH]; [done|].
  change (String a (String.append s EmptyString) = String a s). by f_equal.
Qed.

Lemma newline_upper_char c : Ascii.eqb newline (upper_char c) = Ascii.eqb newline c.
Proof. by destruct c as [[] [] [] [] [] [] [] []]. Qed.

Lemma newline_lower_char c : Ascii.eqb newline (lower_char c) = Ascii.eqb newline c.
Proof. by destruct c as [[] [] [] [] [] [] [] []]. Qed.

Lemma count_newline_capitalize s :
  count_char newline (capitalize s) = count_char newline s.
Proof.
  destruct s as [|c s]; [done|]. cbn [capitalize count_char].
  rewrite newline_upper_char. f_equal.
  induction s as [|a s IH]; [done|]. cbn [lower count_char].
  by rewrite newline_lower_char, IH.
Qed.

Lemma count_newline_uint d : count_char newline (NilEmpty.string_of_uint d) = 0%nat.
Proof. induction d; simpl; done. Qed.

Lemma count_newline_format_int n : count_char newline (format_int n) = 0%nat.
Proof.
  unfold format_int, NilZero.string_of_int, NilZero.string_of_uint.
  destruct (Z.to_int n) as [d|d]; destruct d; simpl; by rewrite ?count_newline_uint.
Qed.

Lemma count_newline_format_02d n : count_char newline (format_02d n) = 0%nat.
Proof.
  unfold format_02d. destruct (Nat.ltb _ 2); [|apply count_newline_format_int].
  cbn [count_char]. by rewrite count_newline_format_int.
Qed.

Lemma count_newline_render_time seconds :
  count_char newline (render_time seconds) = 0%nat.
Proof.
  unfold render_time, hours_and_minutes_as_string, seconds_to_hours_and_minutes.
  rewrite !count_char_append, count_newline_format_int.
  assert (count_char newline
            (if Z.leb 12 (seconds / 60 / 60) then "pm" else "am") = 0%nat) as ->.
  { by destruct (Z.leb 12 (seconds / 60 / 60)). }
  destruct (Z.eqb (seconds / 60 mod 60) 0); [done|].
  by rewrite count_char_append, count_newline_format_02d.
Qed.

Lemma format_spans_lines hs :
  ∀ acc texts,
    format_spans acc hs = Some texts →
    Forall (λ t, count_char newline t = 0%nat) acc →
    Forall (λ t, count_char newline t = 0%nat) texts.
Proof.
  induction hs as [|x hs IH]; intros acc texts; simpl.
  - by intros [= <-].
  - destruct (format_span x) as [t|] eqn:Hx; [|done]. intros Hrest Hacc.
    apply (IH _ _ Hrest). apply Forall_app. split; [done|].
    rewrite Forall_singleton. unfold format_span in Hx.
    destruct x.2 as [e|]; [|done]. injection Hx as <-.
    by rewrite !count_char_append, !count_newline_render_time.
Qed.

Lemma count_newline_join texts :
  Forall (λ t, count_char newline t = 0%nat) texts →
  count_char newline (join ", " texts) = 0%nat.
Proof.
  induction 1 as [|t texts Ht Htexts IH]; [done|].
  destruct texts as [|t' texts]; [done|].
  change (join ", " (t :: t' :: texts))
    with (String.append t (String.append ", " (join ", " (t' :: texts)))).
  by rewrite !count_char_append, Ht, IH.
Qed.

Lemma format_day_line d line :
  count_char newline (day d) = 0%nat →
  format_day d = Some line → is_line line.
Proof.
  unfold format_day. intros Hday.
  assert (∀ texts, Forall (λ t, count_char newline t = 0%nat) texts →
            is_line (String.append (capitalize (day d))
                       (String.append ": "
                          (String.append (join ", " texts)
                             (String newline EmptyString))))) as Hline.
  { intros texts Htexts.
    exists (String.append (capitalize (day d))
              (String.append ": " (join ", " texts))).
    split; [by rewrite !append_assoc|].
    by rewrite !count_char_append, count_newline_capitalize, Hday,
      count_newline_join. }
  destruct (hours d) as [[|x hs]|].
  - intros [= <-]. apply (Hline ["Closed"]). by repeat constructor.
  - destruct (format_spans [] (x :: hs)) as [texts|] eqn:Hspans; [|done].
    intros [= <-]. apply (Hline texts). by eapply format_spans_lines.
  - intros [= <-]. apply (Hline ["Closed"]). by repeat constructor.
Qed.

Lemma opening_hours_to_string_from_lines day_data :
  ∀ result text,
    opening_hours_to_string_from result day_data = Some text →
    ∃ lines, Forall2 (λ d line, format_day d = Some line) day_data lines
             ∧ text = String.append result (concat_strings lines).
Proof.
  induction day_data as [|d rest IH]; intros result text; simpl.
  - intros [= <-]. exists []. split; [constructor|]. by rewrite append_empty_r.
  - destruct (format_day d) as [line|] eqn:Hd; [|done].
    intros (lines & Hlines & ->)%IH. exists (line :: lines).
    split; [by constructor|]. simpl. by rewrite append_assoc.
Qed.

Lemma format_days_are_lines day_data lines :
  Forall (λ d, count_char newline (day d) = 0%nat) day_data →
  Forall2 (λ d line, format_day d = Some line) day_data lines →
  Forall2 (λ d line, format_day d = Some line ∧ is_line line) day_data lines.
Proof.
  intros Hdays Hlines. induction Hlines as [|d line ds ls Hd Hrest IH];
    [constructor|].
  apply Forall_cons_1 in Hdays as [Hday Hdays].
  constructor; [|by apply IH]. split; [done|]. by eapply format_day_line.
Qed.

Lemma count_newline_lines (day_data : list day_record) lines :
  Forall2 (λ d line, format_day d = Some line ∧ is_line line) day_data lines →
  count_char newline (concat_strings lines) = length day_data.
Proof.
  induction 1 as [|d line ds ls [_ Hline] Hrest IH]; [done|].
  cbn [concat_strings length]. rewrite count_char_append, IH.
  destruct Hline as (body & -> & Hbody).
  rewrite count_char_append, Hbody. simpl. lia.
Qed.

(** X12: when the day names of the records are ASCII and contain no line
    feed, the text of the formatter is made of one line per record, in the
    order of the records: each record's own line, ending with the only line
    feed it contains. *)
Theorem one_line_per_record day_data text :
  Forall (λ d, ascii_only (day d) = true) day_data →
  Forall (λ d, count_char newline (day d) = 0%nat) day_data →
  opening_hours_to_string day_data = Some text →
  ∃ lines,
    Forall2 (λ d line, format_day d = Some line ∧ is_line line) day_data lines
    ∧ text = concat_strings lines
    ∧ count_char newline text = length day_data.
Proof.
  intros _ Hdays (lines & Hlines & ->)%opening_hours_to_string_from_lines.
  change (String.append EmptyString (concat_strings lines))
    with (concat_strings lines).
  pose proof (format_days_are_lines _ _ Hdays Hlines) as Hall.
  exists lines. split_and!; [done..|]. by apply count_newline_lines.
Qed.

Lemma one_line_per_record_witness :
  ∃ lines,
    Forall2 (λ d line, format_day d = Some line ∧ is_line line)
      [DayRecord "monday" (Some [(36000, Some 64800)]); DayRecord "tuesday" None] lines
    ∧ String.append "Monday: 10 am - 6 pm"
        (String newline (String.append "Tuesday: Closed" (String newline "")))
      = concat_strings lines
    ∧ count_char newline
        (String.append "Monday: 10 am - 6 pm"
           (String newline (String.append "Tuesday: Closed" (String newline ""))))
      = length [DayRecord "monday" (Some [(36000, Some 64800)]);
                DayRecord "tuesday" None].
Proof.
  apply one_line_per_record.
  - repeat constructor.
  - repeat constructor.
  - reflexivity.
Defined.

(** ** When the formatter fails *)

Lemma format_spans_is_Some hs :
  ∀ acc, is_Some (format_spans acc hs) ↔ ∀ x, x ∈ hs → is_Some x.2.
Proof.
  induction hs as [|x hs IH]; intros acc; simpl.
  - split; [|by eexists]. intros _ x Hx. by apply elem_of_nil in Hx.
  - unfold format_span at 1. destruct x as [s [e|]]; simpl.
    + rewrite IH. split.
      * intros Hall y [->|Hy]%elem_of_cons; [by eexists|by apply Hall].
      * intros Hall y Hy. apply Hall. by constructor.
    + split; [by intros [? [=]]|]. intros Hall.
      destruct (Hall (s, None)) as [? [=]]. constructor.
Qed.

Lemma format_day_is_Some d :
  is_Some (format_day d) ↔ ∀ hs x, hours d = Some hs → x ∈ hs → is_Some x.2.
Proof.
  unfold format_day. destruct (hours d) as [[|x hs]|].
  - split; [|by eexists]. intros _ hs y [= <-] Hy. by apply elem_of_nil in Hy.
  - destruct (format_spans [] (x :: hs)) as [texts|] eqn:Hspans.
    + split; [|by eexists]. intros _ hs' y [= <-].
      by apply (format_spans_is_Some (x :: hs) []).
    + split; [by intros [? [=]]|]. intros Hall.
      assert (is_Some (format_spans [] (x :: hs))) as [? Hsome].
      { apply format_spans_is_Some. intros y Hy. by apply (Hall (x :: hs)). }
      congruence.
  - split; [|by eexists]. by intros _ hs y [=].
Qed.

Lemma opening_hours_to_string_from_is_Some day_data :
  ∀ result,
    is_Some (opening_hours_to_string_from result day_data) ↔
    ∀ d, d ∈ day_data → is_Some (format_day d).
Proof.
  induction day_data as [|d rest IH]; intros result; simpl.
  - split; [|by eexists]. intros _ d Hd. by apply elem_of_nil in Hd.
  - destruct (format_day d) as [line|] eqn:Hd.
    + rewrite IH. split.
      * intros Hall y [->|Hy]%elem_of_cons; [by rewrite Hd|by apply Hall].
      * intros Hall y Hy. apply Hall. by constructor.
    + split; [by intros [? [=]]|]. intros Hall.
      destruct (Hall d) as [? Hsome]; [constructor|]. congruence.
Qed.

(** X13: the formatter returns a text exactly when every tuple of every
    record has an end; a tuple whose end is [None] makes it raise (the
    [TypeError] of [None // 60]). *)
Theorem formatter_needs_ends day_data :
  is_Some (opening_hours_to_string day_data) ↔
  ∀ d hs x, d ∈ day_data → hours d = Some hs → x ∈ hs → is_Some x.2.
Proof.
  unfold opening_hours_to_string.
  rewrite opening_hours_to_string_from_is_Some. split.
  - intros Hall d hs x Hd. by apply format_day_is_Some, Hall.
  - intros Hall d Hd. apply format_day_is_Some. intros hs x. by apply Hall.
Qed.

Lemma parse_opening_hours_days hours_data out :
  parse_opening_hours hours_data = inr out → map day out = DAY_NAMES.
Proof.
  intros (sc & Hrun & _)%parse_opening_hours_inr.
  apply process_days_shape in Hrun as (new & Hshape & Hnames & _).
  simpl in Hshape. subst new. by rewrite map_day_shape.
Qed.

(** X14: the formatter never fails on a result of the normalizer, and the
    text it returns has exactly seven lines. *)
Theorem normalized_hours_are_formatted hours_data out :
  parse_opening_hours hours_data = inr out →
  ∃ text, opening_hours_to_string out = Some text
          ∧ count_char newline text = 7%nat.
Proof.
  intros Hout.
  assert (is_Some (opening_hours_to_string out)) as [text Htext].
  { unfold opening_hours_to_string.
    apply opening_hours_to_string_from_is_Some. intros d Hd.
    apply format_day_is_Some. intros hs x Hhs Hx.
    by eapply parse_opening_hours_closed. }
  exists text. split; [done|].
  pose proof (parse_opening_hours_days _ _ Hout) as Hdays.
  assert (Forall (λ d, count_char newline (day d) = 0%nat) out) as Hnames.
  { assert (Forall (λ s, count_char newline s = 0%nat) (map day out)) as Hall.
    { rewrite Hdays. by repeat constructor. }
    clear -Hall. induction out as [|d out IH]; [constructor|].
    simpl in Hall. apply Forall_cons_1 in Hall as [? ?]. constructor; auto. }
  apply opening_hours_to_string_from_lines in Htext as (lines & Hlines & ->).
  change (String.append EmptyString (concat_strings lines))
    with (concat_strings lines).
  rewrite (count_newline_lines out lines) by by apply format_days_are_lines.
  by rewrite <- (length_map day), Hdays.
Qed.

Lemma normalized_hours_are_formatted_witness :
  ∃ text,
    opening_hours_to_string
      (DayRecord "monday" (Some [(36000, Some 64800)])
         :: closed_records ["tuesday"; "wednesday"; "thursday"; "friday"; "saturday";
                            "sunday"])
    = Some text
    ∧ count_char newline text = 7%nat.
Proof.
  apply (normalized_hours_are_formatted
           {[ "monday" := [open_item 36000; close_item 64800] ]}).
  by vm_compute.
Defined.
